(** * Slide parts of python-pptx: [pptx/parts/slides.py]

    A shallow embedding of the slide, slide layout and slide master parts and
    of the slide collection of a presentation, with the properties of the
    specification stated and settled on it.

    Python objects have identity and are mutated in place, so every part
    lives in an object store ([parts], a finite map from references to
    objects) and a part refers to another one by its reference.  A method
    that may raise returns a [result]. *)

From Stdlib Require Import ZArith.
From stdpp Require Import base option list gmap strings pretty.

Open Scope string_scope.
Open Scope list_scope.
Open Scope nat_scope.

(** ** Exceptions and results *)

(** [ReferenceError] is the answer of the model to a reference that names no
    live object.  A running program never sees it: every reference it holds
    is to a live object. *)
Inductive exn : Type :=
  | AssertionError (msg : string)
  | IndexError (msg : string)
  | KeyError
  | AttributeError
  | ReferenceError.

Inductive result (A : Type) : Type :=
  | Ok (a : A)
  | Raise (e : exn).
Arguments Ok {A} a.
Arguments Raise {A} e.

#[global] Instance result_ret : MRet result := λ A a, Ok a.
#[global] Instance result_bind : MBind result := λ A B f m,
  match m with
  | Ok a => f a
  | Raise e => Raise e
  end.

Definition is_Ok {A} (m : result A) : bool :=
  match m with Ok _ => true | Raise _ => false end.

(** ** Constants of [pptx.opc.constants]

    Only the members that [slides.py] names are listed; every other
    relationship or content type is an [OTHER] one. *)

Module RT.
Inductive t : Type :=
  | IMAGE
  | SLIDE
  | SLIDE_LAYOUT
  | SLIDE_MASTER
  | OTHER (uri : string).
#[global] Instance eq_dec : EqDecision t.
Proof. solve_decision. Defined.
End RT.

Module CT.
Inductive t : Type :=
  | PML_SLIDE
  | PML_SLIDE_LAYOUT
  | PML_SLIDE_MASTER
  | OTHER (mime : string).
#[global] Instance eq_dec : EqDecision t.
Proof. solve_decision. Defined.
End CT.

(** ** Data model *)

(** The identity of a Python object. *)
Definition ref : Type := nat.

(** A relationship of a part: [(rId, reltype, target)].  The token [n]
    stands for the relationship id ['rId<n>']. *)
Record Relationship : Type := mkRel {
  rId : nat;
  reltype : RT.t;
  target : ref;
}.
#[global] Instance Relationship_eq_dec : EqDecision Relationship.
Proof. solve_decision. Defined.

(** The XML tree of a slide-like part, as far as [slides.py] and the shape
    collection read it.  A shape element of a shape tree; [ph] is its
    placeholder type when it is a placeholder. *)
Record sp : Type := mkSp {
  sp_id : nat;
  sp_name : string;
  ph : option string;
}.

(** [<p:spTree>] with the id and name of its [<p:cNvPr>]. *)
Record spTree : Type := mkSpTree {
  cNvPr_id : string;
  cNvPr_name : string;
  sp_lst : list sp;
}.

(** [<p:cSld>], the only child of a slide element the module reads. *)
Record cSld : Type := mkCSld {
  cSld_name : option string;
  cSld_spTree : spTree;
}.

(** Modelled from the spec: [ShapeCollection] of [pptx.shapes.shapetree],
    the shape collection a slide-like part owns: built from the shape tree of
    the part's element and from the owning part. *)
Record ShapeCollection : Type := mkShapeCollection {
  sc_spTree : spTree;
  sc_slide : ref;
}.

(** Modelled from the spec: the state [BasePart] of [pptx.parts.part] keeps
    for every part: a content type, a mutable part name and the outgoing
    relationships in their enumeration order. *)
Record BasePart : Type := mkBasePart {
  content_type : option CT.t;
  partname : option string;
  _relationships : list Relationship;
}.

Record _BaseSlide : Type := mk_BaseSlide {
  super : BasePart;
  _element : option cSld;
  _shapes : option ShapeCollection;
}.

Record Slide : Type := mkSlide {
  Slide_super : _BaseSlide;
  _slidelayout : option ref;
}.

Record SlideLayout : Type := mkSlideLayout {
  SlideLayout_super : _BaseSlide;
  _slidemaster : option ref;
}.

(** [_slidelayouts] is a [PartCollection]: the parts it holds, in order. *)
Record SlideMaster : Type := mkSlideMaster {
  SlideMaster_super : _BaseSlide;
  _slidelayouts : list ref;
}.

(** Modelled from the spec: an image part of the package, told apart by its
    content. *)
Record Image : Type := mkImage {
  Image_super : BasePart;
  _blob : string;
}.

(** Modelled from the spec: an entry [<p:sldId r:id=...>] of the slide id
    list, a record around a relationship id. *)
Record sldId : Type := mkSldId {
  sldId_rId : nat;
}.

(** Modelled from the spec: the presentation part, owner of the slide id
    list and of the relationship table the slide collection reads. *)
Record Presentation : Type := mkPresentation {
  Presentation_super : BasePart;
  sldIdLst : list sldId;
}.

Inductive Part : Type :=
  | PSlide (s : Slide)
  | PSlideLayout (l : SlideLayout)
  | PSlideMaster (m : SlideMaster)
  | PImage (i : Image).

(** The package: the store of its live parts, the image parts of its
    registry ([Package._images]) in the order they were added, and its
    presentation part. *)
Record Package : Type := mkPackage {
  parts : gmap ref Part;
  _images : list ref;
  presentation : Presentation;
}.

(** A binary resource handed to [_add_image]. *)
Record File : Type := mkFile {
  file_name : string;
  file_blob : string;
}.

(** Modelled from the spec: the package part a part is loaded from, with
    its name, content type, parsed element and relationships.  The targets
    of the relationships are the parts already made for them; making and
    loading these parts is the work of the base part and is left out. *)
Record PackagePart : Type := mkPackagePart {
  pkg_partname : string;
  pkg_content_type : CT.t;
  pkg_element : cSld;
  pkg_relationships : list Relationship;
}.

(** ** Access to the store *)

Definition fresh_ref (pkg : Package) : ref := fresh (dom (parts pkg)).

Definition Part_super (o : Part) : BasePart :=
  match o with
  | PSlide s => super (Slide_super s)
  | PSlideLayout l => super (SlideLayout_super l)
  | PSlideMaster m => super (SlideMaster_super m)
  | PImage i => Image_super i
  end.

Definition _BaseSlide_set_super (b : BasePart) (self : _BaseSlide) : _BaseSlide :=
  {| super := b; _element := _element self; _shapes := _shapes self |}.

Definition Part_set_super (b : BasePart) (o : Part) : Part :=
  match o with
  | PSlide s =>
      PSlide {| Slide_super := _BaseSlide_set_super b (Slide_super s);
                _slidelayout := _slidelayout s |}
  | PSlideLayout l =>
      PSlideLayout {| SlideLayout_super := _BaseSlide_set_super b (SlideLayout_super l);
                      _slidemaster := _slidemaster l |}
  | PSlideMaster m =>
      PSlideMaster {| SlideMaster_super := _BaseSlide_set_super b (SlideMaster_super m);
                      _slidelayouts := _slidelayouts m |}
  | PImage i => PImage {| Image_super := b; _blob := _blob i |}
  end.

(** The [_BaseSlide] state of a part, for the parts that have one. *)
Definition Part_BaseSlide (o : Part) : option _BaseSlide :=
  match o with
  | PSlide s => Some (Slide_super s)
  | PSlideLayout l => Some (SlideLayout_super l)
  | PSlideMaster m => Some (SlideMaster_super m)
  | PImage _ => None
  end.

Definition set_parts (h : gmap ref Part) (pkg : Package) : Package :=
  {| parts := h; _images := _images pkg; presentation := presentation pkg |}.

Definition set_presentation (p : Presentation) (pkg : Package) : Package :=
  {| parts := parts pkg; _images := _images pkg; presentation := p |}.

(** [part.partname = name] *)
Definition set_partname (part : ref) (name : string) (pkg : Package)
  : result Package :=
  match parts pkg !! part with
  | Some o =>
      let b := Part_super o in
      let b' := {| content_type := content_type b; partname := Some name;
                   _relationships := _relationships b |} in
      Ok (set_parts (<[part := Part_set_super b' o]> (parts pkg)) pkg)
  | None => Raise ReferenceError
  end.

(** ** [BasePart] and its relationship collection *)

(** Modelled from the spec: [BasePart] and the relationship collection of
    [pptx.parts.part].  [_add_relationship] returns the existing
    relationship of that type to that part when there is one, and otherwise
    records a new one, after the others, under a relationship id no
    relationship of the part has; [part_with_rId] is the target of the
    relationship with that id; [_load] takes the part name, the content type
    and the relationships from the package part. *)
Module BasePart.

Definition __init__ (ct : option CT.t) : BasePart :=
  {| content_type := ct; partname := None; _relationships := [] |}.

Definition _next_rId (rels : list Relationship) : nat :=
  S (max_list (rId <$> rels)).

Definition _add_relationship (rtype : RT.t) (target_part : ref)
    (self : BasePart) : Relationship * BasePart :=
  match list_find (λ rel, target rel = target_part ∧ reltype rel = rtype)
                  (_relationships self) with
  | Some (_, rel) => (rel, self)
  | None =>
      let rel := mkRel (_next_rId (_relationships self)) rtype target_part in
      (rel, {| content_type := content_type self; partname := partname self;
               _relationships := _relationships self ++ [rel] |})
  end.

Definition part_with_rId (rels : list Relationship) (rid : nat) : result ref :=
  match list_find (λ rel, rId rel = rid) rels with
  | Some (_, rel) => Ok (target rel)
  | None => Raise KeyError
  end.

Definition _load (pkgpart : PackagePart) (part_dict : gmap string ref)
    (self : BasePart) : BasePart :=
  {| content_type := Some (pkg_content_type pkgpart);
     partname := Some (pkg_partname pkgpart);
     _relationships := pkg_relationships pkgpart |}.

End BasePart.

(** [self._add_relationship(reltype, target)] on a part of the store. *)
Definition Part_add_relationship (self : ref) (rtype : RT.t) (target_part : ref)
    (pkg : Package) : result (Relationship * Package) :=
  match parts pkg !! self with
  | Some o =>
      let '(rel, b) := BasePart._add_relationship rtype target_part (Part_super o) in
      Ok (rel, set_parts (<[self := Part_set_super b o]> (parts pkg)) pkg)
  | None => Raise ReferenceError
  end.

(** ** The image registry *)

(** Modelled from the spec: [Package._images.add_image] of
    [pptx.presentation], a lookup by content that adds a new image part only
    when no image of the registry has the content of the file. *)
Module ImageCollection.

Definition blob_of (pkg : Package) (r : ref) : option string :=
  match parts pkg !! r with
  | Some (PImage i) => Some (_blob i)
  | _ => None
  end.

Definition add_image (file : File) (pkg : Package) : ref * Package :=
  match list_find (λ r, blob_of pkg r = Some (file_blob file)) (_images pkg) with
  | Some (_, image) => (image, pkg)
  | None =>
      let image := fresh_ref pkg in
      let o := PImage {| Image_super := BasePart.__init__ None;
                         _blob := file_blob file |} in
      (image, {| parts := <[image := o]> (parts pkg);
                 _images := _images pkg ++ [image];
                 presentation := presentation pkg |})
  end.

End ImageCollection.

(** ** [_BaseSlide] *)
Module _BaseSlide.

Definition __init__ (ct : option CT.t) : _BaseSlide :=
  {| super := BasePart.__init__ ct; _element := None; _shapes := None |}.

Definition name (self : _BaseSlide) : result string :=
  match _element self with
  | Some cSld => Ok (default "" (cSld_name cSld))
  | None => Raise AttributeError
  end.

Definition shapes (self : _BaseSlide) : result ShapeCollection :=
  match _shapes self with
  | Some shapes => Ok shapes
  | None => Raise (AssertionError "_BaseSlide.shapes referenced before assigned")
  end.

(** [self_ref] is the reference of [self], which the shape collection
    keeps.  The element is the one the load of the base part has parsed. *)
Definition _load (pkgpart : PackagePart) (part_dict : gmap string ref)
    (self_ref : ref) (self : _BaseSlide) : _BaseSlide :=
  {| super := BasePart._load pkgpart part_dict (super self);
     _element := Some (pkg_element pkgpart);
     _shapes := Some {| sc_spTree := cSld_spTree (pkg_element pkgpart);
                        sc_slide := self_ref |} |}.

(** [Package.containing(self)] is the package of the model, so [_add_image]
    starts from it. *)
Definition _add_image (file : File) (self : ref) (pkg : Package)
  : result ((ref * Relationship) * Package) :=
  let '(image, pkg1) := ImageCollection.add_image file pkg in
  '(rel, pkg2) ← Part_add_relationship self RT.IMAGE image pkg1;
  Ok ((image, rel), pkg2).

End _BaseSlide.

(** [part.shapes] on a part of the store. *)
Definition Part_shapes (part : ref) (pkg : Package) : result ShapeCollection :=
  match parts pkg !! part with
  | Some o =>
      match Part_BaseSlide o with
      | Some b => _BaseSlide.shapes b
      | None => Raise AttributeError
      end
  | None => Raise ReferenceError
  end.

(** Modelled from the spec: [ShapeCollection._clone_layout_placeholders] of
    [pptx.shapes.shapetree], which adds to the collection a copy of every
    placeholder shape of the layout, in their order. *)
Definition _clone_layout_placeholders (slidelayout : ref) (pkg : Package)
    (self : ShapeCollection) : result ShapeCollection :=
  layout_shapes ← Part_shapes slidelayout pkg;
  let tree := sc_spTree self in
  Ok {| sc_spTree :=
          {| cNvPr_id := cNvPr_id tree; cNvPr_name := cNvPr_name tree;
             sp_lst := sp_lst tree ++
                       filter (λ s, is_Some (ph s)) (sp_lst (sc_spTree layout_shapes)) |};
        sc_slide := sc_slide self |}.

(** ** [Slide] *)
Module Slide.

Definition _minimal_element : cSld :=
  {| cSld_name := None;
     cSld_spTree := {| cNvPr_id := "1"; cNvPr_name := ""; sp_lst := [] |} |}.

(** [Slide(slidelayout)]: the new object gets a reference no live part has.
    The shape collection wraps the shape tree of the element, so the
    placeholders cloned into it are in the element as well. *)
Definition __init__ (slidelayout : option ref) (pkg : Package)
  : result (ref * Package) :=
  let self := fresh_ref pkg in
  let base := _BaseSlide.__init__ (Some CT.PML_SLIDE) in
  let element := _minimal_element in
  let shapes := {| sc_spTree := cSld_spTree element; sc_slide := self |} in
  '(shapes, part) ←
    match slidelayout with
    | Some layout =>
        shapes' ← _clone_layout_placeholders layout pkg shapes;
        let '(_, part') :=
          BasePart._add_relationship RT.SLIDE_LAYOUT layout (super base) in
        Ok (shapes', part')
    | None => Ok (shapes, super base)
    end;
  let slide :=
    {| Slide_super :=
         {| super := part;
            _element := Some {| cSld_name := cSld_name element;
                                cSld_spTree := sc_spTree shapes |};
            _shapes := Some shapes |};
       _slidelayout := slidelayout |} in
  Ok (self, set_parts (<[self := PSlide slide]> (parts pkg)) pkg).

Definition slidelayout (self : Slide) : result (option ref) :=
  Ok (_slidelayout self).

Definition _load (pkgpart : PackagePart) (part_dict : gmap string ref)
    (self_ref : ref) (self : Slide) : Slide :=
  let base := _BaseSlide._load pkgpart part_dict self_ref (Slide_super self) in
  {| Slide_super := base;
     _slidelayout :=
       foldl (λ layout rel,
                if decide (reltype rel = RT.SLIDE_LAYOUT) then Some (target rel)
                else layout)
             (_slidelayout self) (_relationships (super base)) |}.

End Slide.

(** ** [SlideLayout] *)
Module SlideLayout.

Definition __init__ : SlideLayout :=
  {| SlideLayout_super := _BaseSlide.__init__ (Some CT.PML_SLIDE_LAYOUT);
     _slidemaster := None |}.

Definition slidemaster (self : SlideLayout) : result ref :=
  match _slidemaster self with
  | Some master => Ok master
  | None => Raise (AssertionError "SlideLayout.slidemaster referenced before assigned")
  end.

Definition _load (pkgpart : PackagePart) (part_dict : gmap string ref)
    (self_ref : ref) (self : SlideLayout) : SlideLayout :=
  let base := _BaseSlide._load pkgpart part_dict self_ref (SlideLayout_super self) in
  {| SlideLayout_super := base;
     _slidemaster :=
       foldl (λ master rel,
                if decide (reltype rel = RT.SLIDE_MASTER) then Some (target rel)
                else master)
             (_slidemaster self) (_relationships (super base)) |}.

End SlideLayout.

(** Modelled from the spec: [PartCollection] of [pptx.parts.part], whose
    [_loadpart] appends the part to the collection. *)
Module PartCollection.

Definition __init__ : list ref := [].

Definition _loadpart (part : ref) (self : list ref) : list ref :=
  self ++ [part].

End PartCollection.

(** ** [SlideMaster] *)
Module SlideMaster.

Definition __init__ : SlideMaster :=
  {| SlideMaster_super := _BaseSlide.__init__ (Some CT.PML_SLIDE_MASTER);
     _slidelayouts := PartCollection.__init__ |}.

Definition slidelayouts (self : SlideMaster) : list ref :=
  _slidelayouts self.

Definition _load (pkgpart : PackagePart) (part_dict : gmap string ref)
    (self_ref : ref) (self : SlideMaster) : SlideMaster :=
  let base := _BaseSlide._load pkgpart part_dict self_ref (SlideMaster_super self) in
  {| SlideMaster_super := base;
     _slidelayouts :=
       foldl (λ layouts rel,
                if decide (reltype rel = RT.SLIDE_LAYOUT)
                then PartCollection._loadpart (target rel) layouts
                else layouts)
             (_slidelayouts self) (_relationships (super base)) |}.

End SlideMaster.

(** [part._load(pkgpart, part_dict)] on a part of the store: the method of
    the class of the part. *)
Definition Part_load (part : ref) (pkgpart : PackagePart)
    (part_dict : gmap string ref) (pkg : Package) : result Package :=
  match parts pkg !! part with
  | Some o =>
      let o' :=
        match o with
        | PSlide s => PSlide (Slide._load pkgpart part_dict part s)
        | PSlideLayout l => PSlideLayout (SlideLayout._load pkgpart part_dict part l)
        | PSlideMaster m => PSlideMaster (SlideMaster._load pkgpart part_dict part m)
        | PImage i =>
            PImage {| Image_super := BasePart._load pkgpart part_dict (Image_super i);
                      _blob := _blob i |}
        end in
      Ok (set_parts (<[part := o']> (parts pkg)) pkg)
  | None => Raise ReferenceError
  end.

(** [SlideLayout()] and [SlideMaster()]: a new object in the store. *)
Definition new_SlideLayout (pkg : Package) : ref * Package :=
  let self := fresh_ref pkg in
  (self, set_parts (<[self := PSlideLayout SlideLayout.__init__]> (parts pkg)) pkg).

Definition new_SlideMaster (pkg : Package) : ref * Package :=
  let self := fresh_ref pkg in
  (self, set_parts (<[self := PSlideMaster SlideMaster.__init__]> (parts pkg)) pkg).

(** ** [SlideCollection]

    The collection keeps no slide of its own.  Its [_sldIdLst] and
    [_prs_rels] are the slide id list and the relationship collection of the
    presentation, the very objects the presentation mutates, so the model
    reads both through the presentation of the package. *)

(** Modelled from the spec: the slide id list of [pptx.oxml] is an ordered
    list of entries, indexed as a Python sequence is: [seq[key]], where a
    negative [key] counts from the end. *)
Definition seq_getitem {A} (l : list A) (key : Z) : result A :=
  let n := Z.of_nat (length l) in
  let i := if decide (key < 0)%Z then (key + n)%Z else key in
  if decide (0 ≤ i < n)%Z then
    match l !! Z.to_nat i with
    | Some x => Ok x
    | None => Raise (IndexError "list index out of range")
    end
  else Raise (IndexError "list index out of range").

(** Modelled from the spec: [add_sldId] of the slide id list appends an
    entry for the relationship id. *)
Definition add_sldId (rid : nat) (prs : Presentation) : Presentation :=
  {| Presentation_super := Presentation_super prs;
     sldIdLst := sldIdLst prs ++ [{| sldId_rId := rid |}] |}.

(** ['/ppt/slides/slide%d.xml' % n] *)
Definition slide_partname (n : nat) : string :=
  "/ppt/slides/slide" +:+ pretty n +:+ ".xml".

Module SlideCollection.

Definition _sldIdLst (pkg : Package) : list sldId :=
  sldIdLst (presentation pkg).

Definition _prs_rels (pkg : Package) : list Relationship :=
  _relationships (Presentation_super (presentation pkg)).

Definition _slide_from_sldId (sld : sldId) (pkg : Package) : result ref :=
  BasePart.part_with_rId (_prs_rels pkg) (sldId_rId sld).

Definition __getitem__ (key : Z) (pkg : Package) : result ref :=
  if decide (key >= Z.of_nat (length (_sldIdLst pkg)))%Z
  then Raise (IndexError "slide index out of range")
  else
    sld ← seq_getitem (_sldIdLst pkg) key;
    _slide_from_sldId sld pkg.

(** The generator [_slides], run to its end. *)
Definition _slides (pkg : Package) : result (list ref) :=
  mapM (λ sld, _slide_from_sldId sld pkg) (_sldIdLst pkg).

Definition __iter__ (pkg : Package) : result (list ref) := _slides pkg.

Definition __len__ (pkg : Package) : nat := length (_sldIdLst pkg).

(** The loop of [_rename_slides] from position [idx] on: the generator
    resolves one slide, the body names it, and so on. *)
Fixpoint _rename_from (idx : nat) (ids : list sldId) (pkg : Package)
  : result Package :=
  match ids with
  | [] => Ok pkg
  | sld :: ids' =>
      slide ← _slide_from_sldId sld pkg;
      pkg' ← set_partname slide (slide_partname (idx + 1)) pkg;
      _rename_from (S idx) ids' pkg'
  end.

Definition _rename_slides (pkg : Package) : result Package :=
  _rename_from 0 (_sldIdLst pkg) pkg.

Definition add_slide (slidelayout : ref) (pkg : Package) : result (ref * Package) :=
  '(slide, pkg1) ← Slide.__init__ (Some slidelayout) pkg;
  let '(rel, prs) :=
    BasePart._add_relationship RT.SLIDE slide
      (Presentation_super (presentation pkg1)) in
  let pkg2 :=
    set_presentation {| Presentation_super := prs;
                        sldIdLst := sldIdLst (presentation pkg1) |} pkg1 in
  let pkg3 := set_presentation (add_sldId (rId rel) (presentation pkg2)) pkg2 in
  pkg4 ← _rename_slides pkg3;
  Ok (slide, pkg4).

End SlideCollection.

(** The package with no part and no slide. *)
Definition empty_package : Package :=
  {| parts := ∅; _images := [];
     presentation := {| Presentation_super := BasePart.__init__ None;
                        sldIdLst := [] |} |}.

(** [part.partname] of a part of the store. *)
Definition partname_of (part : ref) (pkg : Package) : option string :=
  o ← parts pkg !! part; partname (Part_super o).

(** ** Runs of the program *)

(** [add_slide] called once for every layout of the list, in order. *)
Fixpoint add_slides (layouts : list ref) (pkg : Package)
  : result (list ref * Package) :=
  match layouts with
  | [] => Ok ([], pkg)
  | layout :: layouts' =>
      '(slide, pkg1) ← SlideCollection.add_slide layout pkg;
      '(slides, pkg2) ← add_slides layouts' pkg1;
      Ok (slide :: slides, pkg2)
  end.

(** The calls a client of the module makes on a package. *)
Inductive call : Type :=
  | New_Slide (slidelayout : option ref)
  | New_SlideLayout
  | New_SlideMaster
  | Load (part : ref) (pkgpart : PackagePart) (part_dict : gmap string ref)
  | Add_image (part : ref) (file : File)
  | Shapes (part : ref)
  | Add_slide (slidelayout : ref)
  | Getitem (key : Z)
  | Iter
  | Len.

Definition exec_call (c : call) (pkg : Package) : result Package :=
  match c with
  | New_Slide slidelayout => '(_, pkg') ← Slide.__init__ slidelayout pkg; Ok pkg'
  | New_SlideLayout => Ok (new_SlideLayout pkg).2
  | New_SlideMaster => Ok (new_SlideMaster pkg).2
  | Load part pkgpart part_dict => Part_load part pkgpart part_dict pkg
  | Add_image part file => '(_, pkg') ← _BaseSlide._add_image file part pkg; Ok pkg'
  | Shapes part => _ ← Part_shapes part pkg; Ok pkg
  | Add_slide slidelayout => '(_, pkg') ← SlideCollection.add_slide slidelayout pkg; Ok pkg'
  | Getitem key => _ ← SlideCollection.__getitem__ key pkg; Ok pkg
  | Iter => _ ← SlideCollection.__iter__ pkg; Ok pkg
  | Len => Ok pkg
  end.

(** A run: the calls one after the other, as long as none raises. *)
Fixpoint exec (calls : list call) (pkg : Package) : result Package :=
  match calls with
  | [] => Ok pkg
  | c :: calls' => pkg' ← exec_call c pkg; exec calls' pkg'
  end.

Definition is_Add_slide (c : call) : bool :=
  match c with Add_slide _ => true | _ => false end.

Definition is_Load_of (part : ref) (c : call) : bool :=
  match c with Load part' _ _ => bool_decide (part' = part) | _ => false end.

(** ** Predicates on packages *)

(** The part is a slide-like part whose shape collection is assigned. *)
Definition shapes_assigned (part : ref) (pkg : Package) : bool :=
  is_Ok (Part_shapes part pkg).

(** Every relationship of the presentation is to a live part. *)
Definition prs_rels_live (pkg : Package) : Prop :=
  Forall (λ rel, is_Some (parts pkg !! target rel)) (SlideCollection._prs_rels pkg).

#[global] Instance prs_rels_live_dec pkg : Decision (prs_rels_live pkg).
Proof. unfold prs_rels_live. apply _. Defined.

Definition is_slide_like (part : ref) (pkg : Package) : bool :=
  match parts pkg !! part with
  | Some o => bool_decide (is_Some (Part_BaseSlide o))
  | None => false
  end.

(** A part without its part name. *)
Definition erase_partname (o : Part) : Part :=
  let b := Part_super o in
  Part_set_super {| content_type := content_type b; partname := None;
                    _relationships := _relationships b |} o.

(** What the loop of a [_load] leaves in the reference it resolves: the
    target of the last relationship of the type, or the value before the
    load when there is none. *)
Definition resolved (rtype : RT.t) (rels : list Relationship)
    (before : option ref) : option ref :=
  match last (filter (λ rel, reltype rel = rtype) rels) with
  | Some rel => Some (target rel)
  | None => before
  end.

(** ** Packages and package parts of the examples *)

Definition package_of (m : result Package) : Package :=
  match m with Ok pkg => pkg | Raise _ => empty_package end.

Definition layout_pkgpart (n : nat) (master : ref) : PackagePart :=
  {| pkg_partname := "/ppt/slideLayouts/slideLayout" +:+ pretty n +:+ ".xml";
     pkg_content_type := CT.PML_SLIDE_LAYOUT;
     pkg_element :=
       {| cSld_name := Some "Title Slide";
          cSld_spTree :=
            {| cNvPr_id := "1"; cNvPr_name := "";
               sp_lst := [ {| sp_id := 2; sp_name := "Title 1"; ph := Some "ctrTitle" |};
                           {| sp_id := 3; sp_name := "Logo"; ph := None |} ] |} |};
     pkg_relationships := [ {| rId := 1; reltype := RT.SLIDE_MASTER; target := master |} ] |}.

(** A package with a slide master (the part 0) and a loaded slide layout
    (the part 1), the presentation related to the master, and no slide. *)
Definition demo_package : Package :=
  let pkg := package_of (exec [New_SlideMaster; New_SlideLayout;
                               Load 1 (layout_pkgpart 1 0) ∅] empty_package) in
  let '(_, prs) := BasePart._add_relationship RT.SLIDE_MASTER 0
                     (Presentation_super (presentation pkg)) in
  set_presentation {| Presentation_super := prs; sldIdLst := [] |} pkg.

Definition plain_element : cSld :=
  {| cSld_name := None;
     cSld_spTree := {| cNvPr_id := "1"; cNvPr_name := ""; sp_lst := [] |} |}.

(** A slide read from a package with two layout relationships. *)
Definition slide_pkgpart_two_layouts : PackagePart :=
  {| pkg_partname := "/ppt/slides/slide1.xml";
     pkg_content_type := CT.PML_SLIDE;
     pkg_element := plain_element;
     pkg_relationships :=
       [ {| rId := 1; reltype := RT.SLIDE_LAYOUT; target := 0 |};
         {| rId := 2; reltype := RT.SLIDE_LAYOUT; target := 1 |} ] |}.

(** A slide layout read from a package with two master relationships. *)
Definition layout_pkgpart_two_masters : PackagePart :=
  {| pkg_partname := "/ppt/slideLayouts/slideLayout1.xml";
     pkg_content_type := CT.PML_SLIDE_LAYOUT;
     pkg_element := plain_element;
     pkg_relationships :=
       [ {| rId := 1; reltype := RT.SLIDE_MASTER; target := 0 |};
         {| rId := 2; reltype := RT.SLIDE_MASTER; target := 1 |} ] |}.

(** A slide master read from a package whose relationships list the layouts
    [L2], [L1], [L3] (references 2, 1 and 3) in that order, among others. *)
Definition master_pkgpart_L2_L1_L3 : PackagePart :=
  {| pkg_partname := "/ppt/slideMasters/slideMaster1.xml";
     pkg_content_type := CT.PML_SLIDE_MASTER;
     pkg_element := plain_element;
     pkg_relationships :=
       [ {| rId := 1; reltype := RT.SLIDE_LAYOUT; target := 2 |};
         {| rId := 2; reltype := RT.OTHER "theme"; target := 9 |};
         {| rId := 3; reltype := RT.SLIDE_LAYOUT; target := 1 |};
         {| rId := 4; reltype := RT.SLIDE_LAYOUT; target := 3 |} ] |}.

(** [demo_package] after one and after two calls of [add_slide] with its
    layout. *)
Definition demo_package_1 : Package :=
  package_of (exec [Add_slide 1] demo_package).

Definition demo_package_2 : Package :=
  package_of (exec [Add_slide 1; Add_slide 1] demo_package).

Definition logo : File := {| file_name := "logo.png"; file_blob := "PNG:logo" |}.
Definition logo_copy : File := {| file_name := "copy.png"; file_blob := "PNG:logo" |}.

(** ** Relations between packages *)

(** [pkg'] is [pkg] up to the names of its parts. *)
Definition renamed (pkg pkg' : Package) : Prop :=
  presentation pkg' = presentation pkg ∧
  _images pkg' = _images pkg ∧
  ∀ r, erase_partname <$> parts pkg' !! r = erase_partname <$> parts pkg !! r.

(** The entries of the slide id list resolve to [slides], in order. *)
Definition resolves (pkg : Package) (slides : list ref) : Prop :=
  Forall2 (λ sld slide, SlideCollection._slide_from_sldId sld pkg = Ok slide)
          (SlideCollection._sldIdLst pkg) slides.

(** Every slide of the list has the part name of its position, from 1. *)
Definition numbered (pkg : Package) (slides : list ref) : Prop :=
  ∀ i slide, slides !! i = Some slide →
    partname_of slide pkg = Some (slide_partname (i + 1)).

(** The class of a part and whether its shape collection is assigned. *)
Inductive class : Type := CSlide | CSlideLayout | CSlideMaster | CImage.

Definition class_of (o : Part) : class :=
  match o with
  | PSlide _ => CSlide
  | PSlideLayout _ => CSlideLayout
  | PSlideMaster _ => CSlideMaster
  | PImage _ => CImage
  end.

(** The [shapes] accessor does not raise its assertion error on the part. *)
Definition shapes_ok (o : Part) : bool :=
  match Part_BaseSlide o with
  | Some b => bool_decide (is_Some (_shapes b))
  | None => true
  end.

(** From [pkg] to [pkg'] every part stays, in its class, and keeps its
    shapes once it has them; and every slide that is new has its shapes. *)
Definition extends (pkg pkg' : Package) : Prop :=
  (∀ r o, parts pkg !! r = Some o →
     ∃ o', parts pkg' !! r = Some o' ∧ class_of o' = class_of o ∧
           (shapes_ok o = true → shapes_ok o' = true)) ∧
  (∀ r o', parts pkg !! r = None → parts pkg' !! r = Some o' →
     class_of o' = CSlide → shapes_ok o' = true).

(** The part has been loaded in the run. *)
Definition loaded_in (calls : list call) (part : ref) : bool :=
  existsb (is_Load_of part) calls.

(** What a run keeps true: a loaded part and a slide have their shapes. *)
Definition shapes_inv (calls : list call) (pkg : Package) : Prop :=
  ∀ r,
    (loaded_in calls r = true → ∃ o, parts pkg !! r = Some o ∧ shapes_ok o = true) ∧
    (∀ o, parts pkg !! r = Some o → class_of o = CSlide → shapes_ok o = true).

(** The slide [Slide(layout)] builds at the reference [self], from the
    shapes of the layout. *)
Definition new_slide (self layout : ref) (layout_shapes : ShapeCollection) : Slide :=
  let tree :=
    {| cNvPr_id := "1"; cNvPr_name := "";
       sp_lst := filter (λ s, is_Some (ph s)) (sp_lst (sc_spTree layout_shapes)) |} in
  {| Slide_super :=
       {| super := {| content_type := Some CT.PML_SLIDE; partname := None;
                      _relationships := [mkRel 1 RT.SLIDE_LAYOUT layout] |};
          _element := Some {| cSld_name := None; cSld_spTree := tree |};
          _shapes := Some {| sc_spTree := tree; sc_slide := self |} |};
     _slidelayout := Some layout |}.

(** The package of [add_slide] when it comes to [_rename_slides]: with the
    new slide, the relationship of the presentation to it and the entry of
    the id list for this relationship. *)
Definition with_new_slide (slide : ref) (s : Slide) (rel : Relationship)
    (pkg : Package) : Package :=
  let prs := Presentation_super (presentation pkg) in
  {| parts := <[slide := PSlide s]> (parts pkg);
     _images := _images pkg;
     presentation :=
       {| Presentation_super :=
            {| content_type := content_type prs; partname := partname prs;
               _relationships := _relationships prs ++ [rel] |};
          sldIdLst := sldIdLst (presentation pkg) ++ [{| sldId_rId := rId rel |}] |} |}.

(** A slide read from a package under the name [name], with a layout
    relationship to [layout]. *)
Definition slide_pkgpart (name : string) (layout : ref) : PackagePart :=
  {| pkg_partname := name;
     pkg_content_type := CT.PML_SLIDE;
     pkg_element := {| cSld_name := Some "Agenda"; cSld_spTree := cSld_spTree plain_element |};
     pkg_relationships := [ {| rId := 1; reltype := RT.SLIDE_LAYOUT; target := layout |} ] |}.

(** [demo_package_2] once its first slide, the part 2, has been loaded from
    a package part named [slide7.xml]: the names of the slides of the
    collection are then [slide7.xml] and [slide2.xml]. *)
Definition gappy_package : Package :=
  package_of (exec [Load 2 (slide_pkgpart "/ppt/slides/slide7.xml" 1) ∅] demo_package_2).

(** * Properties *)

(** ** Accessors *)

Section accessors.
Implicit Types (b : _BaseSlide) (s : Slide) (l : SlideLayout).

(** C7. The [shapes] accessor of a slide-like part raises the assertion
    error as long as the shape collection is not assigned, whatever the rest
    of the part, and gives the collection once it is; a [SlideLayout] that is
    constructed and not loaded is in the first case. *)
Theorem shapes_before_assigned :
  (∀ part element,
     _BaseSlide.shapes {| super := part; _element := element; _shapes := None |}
     = Raise (AssertionError "_BaseSlide.shapes referenced before assigned")) ∧
  (∀ part element shapes,
     _BaseSlide.shapes {| super := part; _element := element; _shapes := Some shapes |}
     = Ok shapes) ∧
  _BaseSlide.shapes (SlideLayout_super SlideLayout.__init__)
  = Raise (AssertionError "_BaseSlide.shapes referenced before assigned") ∧
  (∀ pkg, Part_shapes (new_SlideLayout pkg).1 (new_SlideLayout pkg).2
          = Raise (AssertionError "_BaseSlide.shapes referenced before assigned")).
Proof.
  repeat split; try reflexivity.
  intros pkg. unfold Part_shapes, new_SlideLayout. simpl.
  by rewrite lookup_insert_eq.
Qed.

(** C5. [SlideLayout.slidemaster] raises the assertion error on every slide
    layout whose master is not resolved, while [Slide.slidelayout] returns
    [None] on every slide whose layout is not resolved, and never raises. *)
Theorem slidemaster_strict_slidelayout_lenient :
  (∀ b, SlideLayout.slidemaster {| SlideLayout_super := b; _slidemaster := None |}
        = Raise (AssertionError "SlideLayout.slidemaster referenced before assigned")) ∧
  (∀ b, Slide.slidelayout {| Slide_super := b; _slidelayout := None |} = Ok None) ∧
  (∀ s, Slide.slidelayout s = Ok (_slidelayout s)) ∧
  (∀ b master,
     SlideLayout.slidemaster {| SlideLayout_super := b; _slidemaster := Some master |}
     = Ok master) ∧
  SlideLayout.slidemaster SlideLayout.__init__
  = Raise (AssertionError "SlideLayout.slidemaster referenced before assigned").
Proof. repeat split. Qed.

End accessors.

(** ** Loading *)

Section load.
Variables (pkgpart : PackagePart) (part_dict : gmap string ref) (self_ref : ref).

Lemma resolve_loop (rtype : RT.t) (rels : list Relationship) (before : option ref) :
  foldl (λ found rel, if decide (reltype rel = rtype) then Some (target rel) else found)
        before rels
  = resolved rtype rels before.
Proof.
  unfold resolved. induction rels as [|rel rels IH] using rev_ind; [done|].
  rewrite foldl_snoc, filter_app, IH. clear IH.
  rewrite filter_cons, filter_nil.
  destruct (decide (reltype rel = rtype)) as [Heq|Hne].
  - by rewrite last_snoc.
  - by rewrite app_nil_r.
Qed.

Lemma loadpart_loop (rels : list Relationship) (layouts : list ref) :
  foldl (λ layouts rel,
           if decide (reltype rel = RT.SLIDE_LAYOUT)
           then PartCollection._loadpart (target rel) layouts else layouts)
        layouts rels
  = layouts ++ (target <$> filter (λ rel, reltype rel = RT.SLIDE_LAYOUT) rels).
Proof.
  revert layouts. induction rels as [|rel rels IH]; intros layouts; simpl.
  - by rewrite app_nil_r.
  - rewrite IH, filter_cons. unfold PartCollection._loadpart.
    destruct (decide (reltype rel = RT.SLIDE_LAYOUT)); [|done].
    by rewrite fmap_cons, <- app_assoc.
Qed.

(** C3, amended.  After a load, the layout of a slide (the master of a slide
    layout) is the target of the last relationship of the type in the
    enumeration order of the relationships, and what it was before the load
    when there is no such relationship. *)
Theorem load_resolves_last_relationship :
  (∀ s, _slidelayout (Slide._load pkgpart part_dict self_ref s)
        = resolved RT.SLIDE_LAYOUT (pkg_relationships pkgpart) (_slidelayout s)) ∧
  (∀ l, _slidemaster (SlideLayout._load pkgpart part_dict self_ref l)
        = resolved RT.SLIDE_MASTER (pkg_relationships pkgpart) (_slidemaster l)).
Proof.
  split; intros x; simpl; apply resolve_loop.
Qed.

(** C6.  Loading a slide master appends to its layouts the targets of its
    layout relationships, all of them and in the enumeration order of the
    relationships; a new master has no layout, so after its load the layouts
    are these targets, and the empty collection when there is no such
    relationship. *)
Theorem master_load_keeps_relationship_order :
  (∀ m, SlideMaster.slidelayouts (SlideMaster._load pkgpart part_dict self_ref m)
        = SlideMaster.slidelayouts m ++
          (target <$> filter (λ rel, reltype rel = RT.SLIDE_LAYOUT)
                             (pkg_relationships pkgpart))) ∧
  SlideMaster.slidelayouts (SlideMaster._load pkgpart part_dict self_ref SlideMaster.__init__)
  = target <$> filter (λ rel, reltype rel = RT.SLIDE_LAYOUT) (pkg_relationships pkgpart) ∧
  SlideMaster.slidelayouts SlideMaster.__init__ = [] ∧
  SlideMaster.slidelayouts
    (SlideMaster._load master_pkgpart_L2_L1_L3 part_dict self_ref SlideMaster.__init__)
  = [2; 1; 3].
Proof.
  assert (∀ m, SlideMaster.slidelayouts (SlideMaster._load pkgpart part_dict self_ref m)
        = SlideMaster.slidelayouts m ++
          (target <$> filter (λ rel, reltype rel = RT.SLIDE_LAYOUT)
                             (pkg_relationships pkgpart))) as Hload.
  { intros m. unfold SlideMaster.slidelayouts. simpl. apply loadpart_loop. }
  split; [exact Hload|]. split; [|split].
  - by rewrite Hload.
  - reflexivity.
  - reflexivity.
Qed.

End load.

(** C3, as stated, fails: a slide loaded with the layout relationships
    [rId1] to the part 0 and [rId2] to the part 1, in this order, has the
    part 1 for layout, the target of the second one; and likewise for the
    master of a slide layout. *)
Lemma load_first_relationship_counterexample :
  let slide := {| Slide_super := _BaseSlide.__init__ (Some CT.PML_SLIDE);
                  _slidelayout := None |} in
  (fst <$> list_find (λ rel, reltype rel = RT.SLIDE_LAYOUT)
                     (pkg_relationships slide_pkgpart_two_layouts)) = Some 0 ∧
  (target <$> pkg_relationships slide_pkgpart_two_layouts !! 0) = Some 0 ∧
  _slidelayout (Slide._load slide_pkgpart_two_layouts ∅ 2 slide) = Some 1 ∧
  _slidelayout (Slide._load slide_pkgpart_two_layouts ∅ 2 slide) ≠ Some 0 ∧
  (fst <$> list_find (λ rel, reltype rel = RT.SLIDE_MASTER)
                     (pkg_relationships layout_pkgpart_two_masters)) = Some 0 ∧
  (target <$> pkg_relationships layout_pkgpart_two_masters !! 0) = Some 0 ∧
  _slidemaster (SlideLayout._load layout_pkgpart_two_masters ∅ 2 SlideLayout.__init__)
  = Some 1 ∧
  _slidemaster (SlideLayout._load layout_pkgpart_two_masters ∅ 2 SlideLayout.__init__)
  ≠ Some 0.
Proof. repeat split; discriminate. Qed.

(** ** Indexed access *)

Section getitem.
Variable pkg : Package.
Local Abbreviation n := (Z.of_nat (SlideCollection.__len__ pkg)).

Lemma seq_getitem_in_range {A} (l : list A) (key : Z) :
  (0 ≤ key < Z.of_nat (length l))%Z →
  ∃ x, l !! Z.to_nat key = Some x ∧ seq_getitem l key = Ok x.
Proof.
  intros Hkey. unfold seq_getitem.
  destruct (decide (key < 0)%Z); [lia|].
  destruct (decide (0 ≤ key < Z.of_nat (length l))%Z); [|lia].
  destruct (lookup_lt_is_Some_2 l (Z.to_nat key)) as [x Hx]; [lia|].
  exists x. by rewrite Hx.
Qed.

Lemma seq_getitem_negative {A} (l : list A) (key : Z) :
  (- Z.of_nat (length l) ≤ key < 0)%Z →
  seq_getitem l key = seq_getitem l (key + Z.of_nat (length l)).
Proof.
  intros Hkey. unfold seq_getitem.
  destruct (decide (key < 0)%Z); [|lia].
  destruct (decide (key + Z.of_nat (length l) < 0)%Z); [lia|done].
Qed.

(** C4, amended.  [collection[key]] raises [IndexError] when [key] is the
    length or more, and when [key] is below minus the length: so does
    [collection[len(collection)]] for every collection, and
    [collection[-1]] for an empty one.  A [key] from 0 to the length is the
    slide of the entry of the id list at this position, and a negative [key]
    from minus the length is the slide at [key] plus the length: the result
    is always the slide of an entry of the list, never one of another
    position nor a default. *)
Theorem getitem_bounds (key : Z) :
  ((key >= n)%Z →
     SlideCollection.__getitem__ key pkg = Raise (IndexError "slide index out of range")) ∧
  ((key < - n)%Z →
     SlideCollection.__getitem__ key pkg = Raise (IndexError "list index out of range")) ∧
  ((0 ≤ key < n)%Z →
     ∃ sld, SlideCollection._sldIdLst pkg !! Z.to_nat key = Some sld ∧
       SlideCollection.__getitem__ key pkg = SlideCollection._slide_from_sldId sld pkg) ∧
  ((- n ≤ key < 0)%Z →
     SlideCollection.__getitem__ key pkg = SlideCollection.__getitem__ (key + n) pkg) ∧
  SlideCollection.__getitem__ n pkg = Raise (IndexError "slide index out of range") ∧
  (SlideCollection.__len__ pkg = 0 →
     SlideCollection.__getitem__ (-1) pkg = Raise (IndexError "list index out of range")).
Proof.
  unfold SlideCollection.__getitem__, SlideCollection.__len__.
  set (ids := SlideCollection._sldIdLst pkg).
  repeat split.
  - intros Hkey. by destruct (decide _); [|lia].
  - intros Hkey. destruct (decide _); [lia|].
    unfold seq_getitem.
    destruct (decide (key < 0)%Z); [|lia].
    by destruct (decide (0 ≤ key + Z.of_nat (length ids) < Z.of_nat (length ids))%Z); [lia|].
  - intros Hkey. destruct (decide _); [lia|].
    destruct (seq_getitem_in_range ids key Hkey) as (sld & Hsld & ->).
    by exists sld.
  - intros Hkey.
    destruct (decide (key >= _)%Z); [lia|].
    destruct (decide (key + _ >= _)%Z); [lia|].
    by rewrite seq_getitem_negative.
  - by destruct (decide _); [|lia].
  - intros Hlen. rewrite Hlen. simpl.
    unfold seq_getitem. rewrite Hlen. done.
Qed.

End getitem.

(** C4 at work on the collection of two slides of [demo_package_2], whose
    slides are the parts 2 and 3. *)
Lemma getitem_bounds_witness :
  SlideCollection.__getitem__ 2 demo_package_2 = Raise (IndexError "slide index out of range") ∧
  SlideCollection.__getitem__ (-3) demo_package_2 = Raise (IndexError "list index out of range") ∧
  SlideCollection.__getitem__ 1 demo_package_2 = Ok 3 ∧
  SlideCollection.__getitem__ (-2) demo_package_2 = SlideCollection.__getitem__ 0 demo_package_2 ∧
  SlideCollection.__getitem__ (-1) demo_package
  = Raise (IndexError "list index out of range").
Proof.
  split; [|split; [|split; [|split]]].
  - destruct (getitem_bounds demo_package_2 2) as (H & _).
    apply H. vm_compute. discriminate.
  - destruct (getitem_bounds demo_package_2 (-3)) as (_ & H & _).
    apply H. vm_compute. reflexivity.
  - destruct (getitem_bounds demo_package_2 1) as (_ & _ & H & _).
    destruct H as (sld & Hsld & ->); [by vm_compute|].
    vm_compute in Hsld. injection Hsld as <-. reflexivity.
  - destruct (getitem_bounds demo_package_2 (-2)) as (_ & _ & _ & H & _).
    apply H. vm_compute. split; [discriminate|reflexivity].
  - destruct (getitem_bounds demo_package (-1)) as (_ & _ & _ & _ & _ & H).
    apply H. reflexivity.
Defined.

(** C4, as stated, fails: the collection of [demo_package_1] has one slide,
    the part 2, and [collection[-1]] is this slide. *)
Lemma getitem_minus_one_counterexample :
  SlideCollection.__len__ demo_package_1 = 1 ∧
  SlideCollection.__getitem__ (-1) demo_package_1 = Ok 2 ∧
  is_Ok (SlideCollection.__getitem__ (-1) demo_package_1) = true.
Proof. repeat split. Qed.

(** ** The store *)

Ltac unfold_result :=
  unfold mbind, result_bind, mret, result_ret in *.

Lemma fresh_ref_None (pkg : Package) : parts pkg !! fresh_ref pkg = None.
Proof. unfold fresh_ref. apply not_elem_of_dom. apply is_fresh. Qed.

Lemma mapM_Ok {A B} (f : A → result B) (l : list A) (ys : list B) :
  mapM f l = Ok ys ↔ Forall2 (λ x y, f x = Ok y) l ys.
Proof.
  revert ys. induction l as [|x l IH]; intros ys; simpl; unfold_result.
  - split; [intros [= <-]; constructor | by inversion 1].
  - destruct (f x) as [y|e] eqn:Hfx.
    + destruct (mapM f l) as [ys'|e] eqn:Hl.
      * split.
        -- intros [= <-]. constructor; [done|]. by apply IH.
        -- inversion 1 as [|? y' ? ys'' Hy Hys]; subst.
           apply IH in Hys. congruence.
      * split; [done|]. inversion 1 as [|? y' ? ys'' Hy Hys]; subst.
        apply IH in Hys. congruence.
    + split; [done|]. inversion 1; congruence.
Qed.

Lemma erase_partname_set_super (o : Part) (name : option string) :
  erase_partname
    (Part_set_super {| content_type := content_type (Part_super o); partname := name;
                       _relationships := _relationships (Part_super o) |} o)
  = erase_partname o.
Proof. by destruct o. Qed.

Lemma erase_partname_class (o o' : Part) :
  erase_partname o' = erase_partname o → class_of o' = class_of o.
Proof. destruct o, o'; simpl; congruence. Qed.

Lemma erase_partname_BaseSlide (o o' : Part) :
  erase_partname o' = erase_partname o →
  (_shapes <$> Part_BaseSlide o') = (_shapes <$> Part_BaseSlide o).
Proof.
  destruct o, o'; simpl; try congruence; unfold erase_partname; simpl;
    intros [=]; congruence.
Qed.

Lemma erase_partname_slidelayout (o' : Part) (s : Slide) :
  erase_partname o' = erase_partname (PSlide s) →
  ∃ s', o' = PSlide s' ∧ _slidelayout s' = _slidelayout s ∧
        _relationships (super (Slide_super s')) = _relationships (super (Slide_super s)) ∧
        _shapes (Slide_super s') = _shapes (Slide_super s).
Proof.
  destruct o' as [s'| | |]; unfold erase_partname; simpl; intros [=].
  exists s'. by repeat split.
Qed.

Section renamed.
Variables pkg pkg' : Package.
Hypothesis Hrenamed : renamed pkg pkg'.

Lemma renamed_lookup_is_Some (r : ref) :
  is_Some (parts pkg' !! r) ↔ is_Some (parts pkg !! r).
Proof.
  destruct Hrenamed as (_ & _ & H). specialize (H r).
  destruct (parts pkg' !! r), (parts pkg !! r); simpl in H;
    try discriminate; split; intros [? ?]; eauto; discriminate.
Qed.

Lemma renamed_Part_shapes (r : ref) : Part_shapes r pkg' = Part_shapes r pkg.
Proof.
  destruct Hrenamed as (_ & _ & H). specialize (H r).
  unfold Part_shapes.
  destruct (parts pkg' !! r) as [o'|], (parts pkg !! r) as [o|]; simpl in H;
    try discriminate; [|done].
  injection H as H. apply erase_partname_BaseSlide in H.
  destruct (Part_BaseSlide o'), (Part_BaseSlide o); simpl in H; try discriminate; [|done].
  injection H as H. unfold _BaseSlide.shapes. by rewrite H.
Qed.

Lemma renamed_slide_from_sldId (sld : sldId) :
  SlideCollection._slide_from_sldId sld pkg' = SlideCollection._slide_from_sldId sld pkg.
Proof.
  destruct Hrenamed as (H & _).
  unfold SlideCollection._slide_from_sldId, SlideCollection._prs_rels. by rewrite H.
Qed.

End renamed.

Lemma renamed_refl (pkg : Package) : renamed pkg pkg.
Proof. by repeat split. Qed.

Lemma renamed_trans (pkg1 pkg2 pkg3 : Package) :
  renamed pkg1 pkg2 → renamed pkg2 pkg3 → renamed pkg1 pkg3.
Proof.
  intros (Hp & Hi & Hl) (Hp' & Hi' & Hl').
  split; [congruence|split; [congruence|]].
  intros r. by rewrite Hl', Hl.
Qed.

Lemma set_partname_Ok (part : ref) (name : string) (pkg : Package) :
  is_Some (parts pkg !! part) →
  ∃ pkg', set_partname part name pkg = Ok pkg' ∧ renamed pkg pkg' ∧
    partname_of part pkg' = Some name ∧
    ∀ r, r ≠ part → parts pkg' !! r = parts pkg !! r.
Proof.
  intros [o Ho]. unfold set_partname. rewrite Ho.
  eexists. split; [done|]. repeat split; simpl.
  - intros r. destruct (decide (r = part)) as [->|Hne].
    + rewrite lookup_insert_eq, Ho. simpl. f_equal.
      by apply erase_partname_set_super.
    + by rewrite lookup_insert_ne.
  - unfold partname_of. simpl. rewrite lookup_insert_eq. simpl. by destruct o.
  - intros r Hne. by rewrite lookup_insert_ne.
Qed.

(** ** Relationships *)

Section relationships.
Implicit Types (rels : list Relationship) (rel : Relationship).

Lemma next_rId_fresh rels rel : rel ∈ rels → rId rel ≠ BasePart._next_rId rels.
Proof.
  intros Hrel. unfold BasePart._next_rId.
  assert (rId rel ≤ max_list (rId <$> rels)); [|lia].
  apply max_list_elem_of_le, list_elem_of_fmap. by exists rel.
Qed.

Lemma part_with_rId_Ok rels rid part :
  BasePart.part_with_rId rels rid = Ok part →
  ∃ rel, rel ∈ rels ∧ rId rel = rid ∧ target rel = part.
Proof.
  unfold BasePart.part_with_rId.
  destruct (list_find _ rels) as [[i rel]|] eqn:Hfind; [|done].
  intros [= <-]. apply list_find_Some in Hfind as (Hi & Hrid & _).
  exists rel. split; [|done]. by eapply list_elem_of_lookup_2.
Qed.

Lemma part_with_rId_app_l rels rels' rid part :
  BasePart.part_with_rId rels rid = Ok part →
  BasePart.part_with_rId (rels ++ rels') rid = Ok part.
Proof.
  unfold BasePart.part_with_rId.
  destruct (list_find _ rels) as [[i rel]|] eqn:Hfind; [|done].
  intros [= <-]. by erewrite list_find_app_l.
Qed.

Lemma part_with_rId_new rels rtype part :
  BasePart.part_with_rId (rels ++ [mkRel (BasePart._next_rId rels) rtype part])
                         (BasePart._next_rId rels) = Ok part.
Proof.
  unfold BasePart.part_with_rId.
  rewrite list_find_app_r.
  - simpl. by rewrite decide_True.
  - apply list_find_None, Forall_forall. intros rel Hrel. by apply next_rId_fresh.
Qed.

(** A relationship to a part that no relationship of the collection targets
    is a new one, at the end of the collection, under a fresh id. *)
Lemma add_relationship_new rtype part (self : BasePart) :
  Forall (λ rel, target rel ≠ part) (_relationships self) →
  BasePart._add_relationship rtype part self
  = (mkRel (BasePart._next_rId (_relationships self)) rtype part,
     {| content_type := content_type self; partname := partname self;
        _relationships := _relationships self ++
          [mkRel (BasePart._next_rId (_relationships self)) rtype part] |}).
Proof.
  intros Hnew. unfold BasePart._add_relationship.
  rewrite (proj2 (list_find_None _ _)); [done|].
  eapply Forall_impl; [exact Hnew|]. simpl. tauto.
Qed.

(** Asked twice, [_add_relationship] answers the same relationship and
    leaves the part as the first call left it. *)
Lemma add_relationship_twice rtype part (self : BasePart) :
  let '(rel, self') := BasePart._add_relationship rtype part self in
  BasePart._add_relationship rtype part self' = (rel, self') ∧
  rel ∈ _relationships self' ∧ reltype rel = rtype ∧ target rel = part.
Proof.
  unfold BasePart._add_relationship.
  destruct (list_find _ (_relationships self)) as [[i rel]|] eqn:Hfind.
  - rewrite Hfind. apply list_find_Some in Hfind as (Hi & [? ?] & _).
    repeat split; [|done..]. by eapply list_elem_of_lookup_2.
  - simpl. rewrite list_find_app_r by done. simpl.
    rewrite decide_True by done. simpl.
    repeat split. apply elem_of_app. right. by apply list_elem_of_singleton.
Qed.

End relationships.

(** ** Renumbering *)

(** The loop names every slide the id list resolves to.  A slide is left
    with the name of its last position in the list. *)
Lemma rename_from_spec (ids : list sldId) (slides : list ref) :
  ∀ idx pkg,
    Forall2 (λ sld slide, SlideCollection._slide_from_sldId sld pkg = Ok slide)
            ids slides →
    Forall (λ slide, is_Some (parts pkg !! slide)) slides →
    ∃ pkg',
      SlideCollection._rename_from idx ids pkg = Ok pkg' ∧
      renamed pkg pkg' ∧
      (∀ r, r ∉ slides → parts pkg' !! r = parts pkg !! r) ∧
      (∀ i slide, slides !! i = Some slide → slide ∉ drop (S i) slides →
         partname_of slide pkg' = Some (slide_partname (idx + i + 1))).
Proof.
  revert slides. induction ids as [|sld ids IH];
    intros slides idx pkg Hres Hlive; inversion Hres as [|? slide ? slides' Hsld Hres']; subst.
  - exists pkg. split; [done|]. split; [apply renamed_refl|]. split; [done|].
    intros i slide. by rewrite lookup_nil.
  - apply Forall_cons in Hlive as [Hslide Hlive].
    destruct (set_partname_Ok slide (slide_partname (idx + 1)) pkg Hslide)
      as (pkg1 & Hset & Hren1 & Hname & Hframe1).
    destruct (IH slides' (S idx) pkg1) as (pkg' & Hloop & Hren & Hframe & Hnames).
    { eapply Forall2_impl; [exact Hres'|]. simpl. intros sld' slide' <-.
      by apply renamed_slide_from_sldId. }
    { eapply Forall_impl; [exact Hlive|]. simpl. intros slide'.
      by apply renamed_lookup_is_Some. }
    exists pkg'. simpl. unfold_result. rewrite Hsld, Hset.
    split; [done|]. split; [by eapply renamed_trans|]. split.
    + intros r Hr. apply not_elem_of_cons in Hr as [Hne Hr].
      rewrite Hframe by done. by apply Hframe1.
    + intros [|i] slide0 Hi Hlast; simpl in *.
      * injection Hi as <-. rewrite drop_0 in Hlast.
        unfold partname_of in *. rewrite Hframe by done.
        by replace (idx + 0 + 1) with (idx + 1) by lia.
      * replace (idx + S i + 1) with (S idx + i + 1) by lia. by apply Hnames.
Qed.

(** ** Construction of a slide *)

Lemma Slide_init_layout (layout : ref) (pkg : Package) (layout_shapes : ShapeCollection) :
  Part_shapes layout pkg = Ok layout_shapes →
  Slide.__init__ (Some layout) pkg
  = Ok (fresh_ref pkg,
        set_parts (<[fresh_ref pkg := PSlide (new_slide (fresh_ref pkg) layout layout_shapes)]>
                     (parts pkg)) pkg).
Proof.
  intros Hshapes. unfold Slide.__init__, _clone_layout_placeholders.
  unfold_result. by rewrite Hshapes.
Qed.

Lemma Slide_init_inv (slidelayout : option ref) (pkg pkg' : Package) (self : ref) :
  Slide.__init__ slidelayout pkg = Ok (self, pkg') →
  self = fresh_ref pkg ∧
  ∃ s, pkg' = set_parts (<[self := PSlide s]> (parts pkg)) pkg ∧
       is_Some (_shapes (Slide_super s)) ∧ _slidelayout s = slidelayout.
Proof.
  unfold Slide.__init__. unfold_result.
  destruct slidelayout as [layout|].
  - destruct (_clone_layout_placeholders layout pkg _) as [shapes|]; [|done].
    simpl. intros [= <- <-]. split; [done|]. eexists. split; [done|]. by split.
  - intros [= <- <-]. split; [done|]. eexists. split; [done|]. by split.
Qed.

(** ** One call of [add_slide] *)

Lemma resolves_live (pkg : Package) (slides : list ref) :
  prs_rels_live pkg → resolves pkg slides →
  Forall (λ slide, is_Some (parts pkg !! slide)) slides.
Proof.
  unfold prs_rels_live, resolves. intros Hlive Hres.
  apply Forall_forall. intros slide Hslide.
  apply list_elem_of_lookup in Hslide as [i Hi].
  destruct (Forall2_lookup_r _ _ _ _ _ Hres Hi) as (sld & _ & Hsld).
  apply part_with_rId_Ok in Hsld as (rel & Hrel & _ & <-).
  by eapply (proj1 (Forall_forall _ _) Hlive).
Qed.

Section add_slide.
Variables (layout : ref) (pkg : Package) (layout_shapes : ShapeCollection).
Variable slides : list ref.
Hypothesis Hlive : prs_rels_live pkg.
Hypothesis Hshapes : Part_shapes layout pkg = Ok layout_shapes.
Hypothesis Hres : resolves pkg slides.

Local Abbreviation slide := (fresh_ref pkg).
Local Abbreviation rel :=
  (mkRel (BasePart._next_rId (SlideCollection._prs_rels pkg)) RT.SLIDE (fresh_ref pkg)).
Local Abbreviation pkg3 :=
  (with_new_slide (fresh_ref pkg) (new_slide (fresh_ref pkg) layout layout_shapes)
     (mkRel (BasePart._next_rId (SlideCollection._prs_rels pkg)) RT.SLIDE (fresh_ref pkg))
     pkg).

Lemma add_slide_relationship :
  BasePart._add_relationship RT.SLIDE slide (Presentation_super (presentation pkg))
  = (rel, Presentation_super (presentation pkg3)).
Proof.
  rewrite add_relationship_new; [done|].
  eapply Forall_impl; [exact Hlive|]. simpl. intros r [o Ho] Heq.
  rewrite Heq, fresh_ref_None in Ho. discriminate.
Qed.

Lemma add_slide_unfold :
  SlideCollection.add_slide layout pkg
  = (pkg' ← SlideCollection._rename_slides pkg3; Ok (slide, pkg')).
Proof.
  unfold SlideCollection.add_slide. rewrite (Slide_init_layout _ _ _ Hshapes).
  unfold_result. simpl. by rewrite add_slide_relationship.
Qed.

Lemma add_slide_resolves : resolves pkg3 (slides ++ [slide]).
Proof.
  unfold resolves, SlideCollection._sldIdLst. simpl.
  apply Forall2_app.
  - eapply Forall2_impl; [exact Hres|]. simpl. intros sld r Hsld.
    by apply part_with_rId_app_l.
  - constructor; [|constructor]. apply part_with_rId_new.
Qed.

Lemma add_slide_live :
  Forall (λ r, is_Some (parts pkg3 !! r)) (slides ++ [slide]).
Proof.
  apply Forall_app. split.
  - eapply Forall_impl; [by apply resolves_live|]. simpl. intros r [o Ho].
    destruct (decide (slide = r)) as [<-|Hne].
    + rewrite lookup_insert_eq. eauto.
    + rewrite lookup_insert_ne by done. eauto.
  - constructor; [|constructor]. simpl. rewrite lookup_insert_eq. eauto.
Qed.

Lemma add_slide_spec :
  ∃ pkg',
    SlideCollection._rename_slides pkg3 = Ok pkg' ∧
    SlideCollection.add_slide layout pkg = Ok (slide, pkg') ∧
    renamed pkg3 pkg' ∧
    (∀ r, r ∉ slides ++ [slide] → parts pkg' !! r = parts pkg3 !! r) ∧
    (∀ i r, (slides ++ [slide]) !! i = Some r → r ∉ drop (S i) (slides ++ [slide]) →
       partname_of r pkg' = Some (slide_partname (i + 1))).
Proof.
  destruct (rename_from_spec _ _ 0 pkg3 add_slide_resolves add_slide_live)
    as (pkg' & Hloop & Hren & Hframe & Hnames).
  exists pkg'. split; [exact Hloop|]. split; [|split; [done|split; [done|]]].
  - rewrite add_slide_unfold. unfold SlideCollection._rename_slides in *.
    unfold_result. by rewrite Hloop.
  - intros i r Hi Hlast. by apply (Hnames i r).
Qed.

End add_slide.

(** ** Part names *)

Lemma string_length_app (a b : string) :
  String.length (a +:+ b) = String.length a + String.length b.
Proof. induction a as [|c a IH]; simpl; [done|]. by rewrite IH. Qed.

Lemma string_app_inj_r (s a b : string) : a +:+ s = b +:+ s → a = b.
Proof.
  revert b. induction a as [|c a IH]; intros [|c' b]; simpl; intros Heq.
  - done.
  - apply (f_equal String.length) in Heq.
    rewrite ?string_length_app in Heq. simpl in Heq.
    rewrite ?string_length_app in Heq. lia.
  - apply (f_equal String.length) in Heq.
    rewrite ?string_length_app in Heq. simpl in Heq.
    rewrite ?string_length_app in Heq. lia.
  - injection Heq as -> Heq. f_equal. by apply IH.
Qed.

Lemma slide_partname_inj (n m : nat) : slide_partname n = slide_partname m → n = m.
Proof.
  unfold slide_partname. intros Heq.
  apply String.app_inj, string_app_inj_r in Heq.
  by apply (inj pretty) in Heq.
Qed.

(** The number of a part name is written in decimal, without leading zeros. *)
Example slide_partname_examples :
  slide_partname 1 = "/ppt/slides/slide1.xml" ∧
  slide_partname 9 = "/ppt/slides/slide9.xml" ∧
  slide_partname 10 = "/ppt/slides/slide10.xml" ∧
  slide_partname 123 = "/ppt/slides/slide123.xml".
Proof. repeat split. Qed.

(** ** The renumbering invariant *)

Lemma NoDup_lookup_not_later {A} (l : list A) (i : nat) (x : A) :
  NoDup l → l !! i = Some x → x ∉ drop (S i) l.
Proof.
  intros Hnodup Hi. rewrite <- (take_drop_middle l i x Hi) in Hnodup.
  apply NoDup_app in Hnodup as (_ & _ & Hnodup).
  by apply NoDup_cons in Hnodup as [? _].
Qed.

Lemma shapes_assigned_live (l : ref) (pkg : Package) :
  shapes_assigned l pkg = true → is_Some (parts pkg !! l).
Proof.
  unfold shapes_assigned, Part_shapes. by destruct (parts pkg !! l); [eauto|].
Qed.

Lemma shapes_assigned_Ok (l : ref) (pkg : Package) :
  shapes_assigned l pkg = true → ∃ shapes, Part_shapes l pkg = Ok shapes.
Proof.
  unfold shapes_assigned. destruct (Part_shapes l pkg); [eauto|done].
Qed.

(** One call keeps the collection well numbered, with the new slide last. *)
Lemma add_slide_inv (layout : ref) (pkg : Package) (slides : list ref) :
  prs_rels_live pkg → resolves pkg slides → NoDup slides →
  shapes_assigned layout pkg = true →
  ∃ pkg',
    SlideCollection.add_slide layout pkg = Ok (fresh_ref pkg, pkg') ∧
    prs_rels_live pkg' ∧
    resolves pkg' (slides ++ [fresh_ref pkg]) ∧
    NoDup (slides ++ [fresh_ref pkg]) ∧
    numbered pkg' (slides ++ [fresh_ref pkg]) ∧
    (∀ l, shapes_assigned l pkg = true → shapes_assigned l pkg' = true).
Proof.
  intros Hlive Hres Hnodup Hlayout.
  destruct (shapes_assigned_Ok _ _ Hlayout) as [layout_shapes Hshapes].
  destruct (add_slide_spec layout pkg layout_shapes slides Hlive Hshapes Hres)
    as (pkg' & _ & Hadd & Hren & _ & Hnames).
  pose proof (resolves_live _ _ Hlive Hres) as Hslides.
  assert (NoDup (slides ++ [fresh_ref pkg])) as Hnodup'.
  { apply NoDup_app. split; [done|]. split; [|apply NoDup_singleton].
    intros r Hr ->%list_elem_of_singleton.
    apply (proj1 (Forall_forall _ _) Hslides) in Hr as [o Ho].
    rewrite fresh_ref_None in Ho. discriminate. }
  exists pkg'. split; [done|]. split; [|split; [|split; [done|split]]].
  - unfold prs_rels_live, SlideCollection._prs_rels.
    rewrite (proj1 Hren). simpl. apply Forall_app. split.
    + eapply Forall_impl; [exact Hlive|]. simpl. intros r [o Ho].
      apply (renamed_lookup_is_Some _ _ Hren). simpl.
      destruct (decide (fresh_ref pkg = target r)) as [<-|Hne].
      * rewrite lookup_insert_eq. eauto.
      * rewrite lookup_insert_ne by done. eauto.
    + constructor; [|constructor]. simpl.
      apply (renamed_lookup_is_Some _ _ Hren). simpl.
      rewrite lookup_insert_eq. eauto.
  - pose proof (add_slide_resolves layout pkg layout_shapes slides Hres) as Hres3.
    unfold resolves, SlideCollection._sldIdLst in *. rewrite (proj1 Hren).
    eapply Forall2_impl; [exact Hres3|]. simpl. intros sld r <-.
    by apply renamed_slide_from_sldId.
  - intros i r Hi. apply Hnames; [done|]. by apply NoDup_lookup_not_later.
  - intros l Hl. unfold shapes_assigned in *.
    rewrite (renamed_Part_shapes _ _ Hren).
    replace (Part_shapes l _) with (Part_shapes l pkg); [done|].
    unfold Part_shapes. simpl. rewrite lookup_insert_ne; [done|].
    intros <-. apply shapes_assigned_live in Hl as [o Ho].
    rewrite fresh_ref_None in Ho. discriminate.
Qed.

Lemma add_slides_inv (layouts : list ref) :
  ∀ pkg slides,
    prs_rels_live pkg → resolves pkg slides → NoDup slides → numbered pkg slides →
    Forall (λ l, shapes_assigned l pkg = true) layouts →
    ∃ new pkg',
      add_slides layouts pkg = Ok (new, pkg') ∧
      length new = length layouts ∧
      prs_rels_live pkg' ∧
      resolves pkg' (slides ++ new) ∧
      NoDup (slides ++ new) ∧
      numbered pkg' (slides ++ new) ∧
      (∀ l, shapes_assigned l pkg = true → shapes_assigned l pkg' = true).
Proof.
  induction layouts as [|layout layouts IH];
    intros pkg slides Hlive Hres Hnodup Hnum Hlayouts.
  - exists [], pkg. rewrite app_nil_r. by repeat split.
  - apply Forall_cons in Hlayouts as [Hlayout Hlayouts].
    destruct (add_slide_inv layout pkg slides Hlive Hres Hnodup Hlayout)
      as (pkg1 & Hadd & Hlive1 & Hres1 & Hnodup1 & Hnum1 & Hmono1).
    destruct (IH pkg1 (slides ++ [fresh_ref pkg]) Hlive1 Hres1 Hnodup1 Hnum1)
      as (new & pkg' & Hrun & Hlen & Hlive' & Hres' & Hnodup' & Hnum' & Hmono').
    { eapply Forall_impl; [exact Hlayouts|]. simpl. auto. }
    exists (fresh_ref pkg :: new), pkg'. simpl. unfold_result.
    rewrite Hadd, Hrun. rewrite <- app_assoc in *. simpl in *.
    split; [done|]. split; [by rewrite Hlen|]. repeat split; auto.
Qed.

Lemma add_slides_app (layouts1 layouts2 : list ref) (pkg : Package) :
  add_slides (layouts1 ++ layouts2) pkg
  = ('(slides1, pkg1) ← add_slides layouts1 pkg;
     '(slides2, pkg2) ← add_slides layouts2 pkg1;
     Ok (slides1 ++ slides2, pkg2)).
Proof.
  revert pkg. induction layouts1 as [|layout layouts1 IH]; intros pkg; simpl; unfold_result.
  - by destruct (add_slides layouts2 pkg) as [[? ?]|].
  - destruct (SlideCollection.add_slide layout pkg) as [[slide pkg1]|]; [|done].
    rewrite IH. unfold_result.
    destruct (add_slides layouts1 pkg1) as [[slides1 pkg2]|]; [|done].
    by destruct (add_slides layouts2 pkg2) as [[? ?]|].
Qed.

(** C1.  Take a package whose slide collection is empty and any sequence of
    calls of [add_slide], each with a layout whose shapes are loaded.  Every
    call returns, and after the k-th one the collection has k slides, all
    different, the slide at position [i] (from 0) of the id list order has
    the part name [/ppt/slides/slide<i+1>.xml], and no two slides have the
    same name.  The package after the k-th call is the one the rest of the
    calls goes on from. *)
Theorem renumbering_invariant (pkg : Package) (layouts : list ref) (k : nat) :
  SlideCollection.__len__ pkg = 0 →
  prs_rels_live pkg →
  Forall (λ l, shapes_assigned l pkg = true) layouts →
  k ≤ length layouts →
  ∃ slides pkg',
    add_slides (take k layouts) pkg = Ok (slides, pkg') ∧
    add_slides layouts pkg
    = ('(rest, pkg'') ← add_slides (drop k layouts) pkg'; Ok (slides ++ rest, pkg'')) ∧
    SlideCollection.__len__ pkg' = k ∧
    length slides = k ∧
    SlideCollection._slides pkg' = Ok slides ∧
    NoDup slides ∧
    (∀ i slide, slides !! i = Some slide →
       partname_of slide pkg' = Some ("/ppt/slides/slide" +:+ pretty (i + 1) +:+ ".xml")) ∧
    (∀ i j slide_i slide_j,
       slides !! i = Some slide_i → slides !! j = Some slide_j →
       partname_of slide_i pkg' = partname_of slide_j pkg' → i = j).
Proof.
  intros Hempty Hlive Hlayouts Hk.
  apply nil_length_inv in Hempty.
  destruct (add_slides_inv (take k layouts) pkg []) as
    (slides & pkg' & Hrun & Hlen & _ & Hres & Hnodup & Hnum & _).
  { done. } { unfold resolves. rewrite Hempty. constructor. } { constructor. }
  { intros i slide. by rewrite lookup_nil. }
  { by apply Forall_take. }
  simpl in *. rewrite length_take in Hlen.
  exists slides, pkg'. split; [done|]. split; [|split; [|split; [lia|split; [|split; [done|split]]]]].
  - rewrite <- (take_drop k layouts) at 1. rewrite add_slides_app.
    unfold_result. by rewrite Hrun.
  - unfold SlideCollection.__len__. rewrite (Forall2_length _ _ _ Hres). lia.
  - by apply mapM_Ok.
  - exact Hnum.
  - intros i j si sj Hi Hj Heq.
    assert (slide_partname (i + 1) = slide_partname (j + 1)) as Hnames.
    { pose proof (Hnum i si Hi). pose proof (Hnum j sj Hj). congruence. }
    apply slide_partname_inj in Hnames. lia.
Qed.

(** C1 on [demo_package] and three calls with its layout, after the second
    call. *)
Lemma renumbering_invariant_witness :
  ∃ slides pkg',
    add_slides [1; 1] demo_package = Ok (slides, pkg') ∧
    SlideCollection._slides pkg' = Ok slides ∧
    length slides = 2 ∧
    (∀ i slide, slides !! i = Some slide →
       partname_of slide pkg' = Some ("/ppt/slides/slide" +:+ pretty (i + 1) +:+ ".xml")).
Proof.
  destruct (renumbering_invariant demo_package [1; 1; 1] 2)
    as (slides & pkg' & Hrun & _ & _ & Hlen & Hslides & _ & Hnames & _).
  - reflexivity.
  - apply (bool_decide_unpack _). by vm_compute.
  - by repeat constructor.
  - simpl. lia.
  - exists slides, pkg'. by repeat split.
Defined.

(** ** The steps of [add_slide] *)



(** ** Images *)

Section add_image.
Variables (file1 file2 : File) (self : ref) (pkg : Package).
Hypothesis Hself : is_slide_like self pkg = true.
Hypothesis Hsame : file_blob file1 = file_blob file2.

Lemma blob_of_ext (pkg1 pkg2 : Package) (blob : string) (images : list ref) :
  (∀ r, ImageCollection.blob_of pkg1 r = ImageCollection.blob_of pkg2 r) →
  list_find (λ r, ImageCollection.blob_of pkg1 r = Some blob) images
  = list_find (λ r, ImageCollection.blob_of pkg2 r = Some blob) images.
Proof.
  intros Hext. induction images as [|r images IH]; simpl; [done|].
  rewrite IH, Hext. by destruct (decide _).
Qed.

(** The image the registry answers is found by a lookup in the registry it
    leaves, and no live part is touched. *)
Lemma add_image_found (file : File) :
  ∃ i,
    list_find (λ r, ImageCollection.blob_of (ImageCollection.add_image file pkg).2 r
                    = Some (file_blob file))
              (_images (ImageCollection.add_image file pkg).2)
    = Some (i, (ImageCollection.add_image file pkg).1) ∧
    ∀ r, is_Some (parts pkg !! r) →
      parts (ImageCollection.add_image file pkg).2 !! r = parts pkg !! r.
Proof.
  unfold ImageCollection.add_image.
  destruct (list_find _ (_images pkg)) as [[i image]|] eqn:Hfind; simpl.
  - exists i. by rewrite Hfind.
  - assert (∀ r, r ≠ fresh_ref pkg →
        ImageCollection.blob_of
          {| parts := <[fresh_ref pkg := PImage {| Image_super := BasePart.__init__ None;
                                                     _blob := file_blob file |}]> (parts pkg);
             _images := _images pkg ++ [fresh_ref pkg];
             presentation := presentation pkg |} r
        = ImageCollection.blob_of pkg r) as Hold.
    { intros r Hne. unfold ImageCollection.blob_of. simpl.
      by rewrite lookup_insert_ne. }
    assert (ImageCollection.blob_of
          {| parts := <[fresh_ref pkg := PImage {| Image_super := BasePart.__init__ None;
                                                     _blob := file_blob file |}]> (parts pkg);
             _images := _images pkg ++ [fresh_ref pkg];
             presentation := presentation pkg |} (fresh_ref pkg)
        = Some (file_blob file)) as Hnew.
    { unfold ImageCollection.blob_of. simpl. by rewrite lookup_insert_eq. }
    match goal with |- ∃ i, list_find ?P _ = _ ∧ _ =>
      destruct (list_find P (_images pkg)) as [[i image]|] eqn:Hfind'
    end.
    + exists i. split.
      * erewrite list_find_app_l; [|exact Hfind'].
        apply list_find_Some in Hfind' as (Hi & Hblob & _).
        destruct (decide (image = fresh_ref pkg)) as [->|Hne]; [done|].
        rewrite Hold in Hblob by done.
        apply list_find_None in Hfind.
        apply list_elem_of_lookup_2 in Hi.
        by apply (proj1 (Forall_forall _ _) Hfind) in Hi.
      * intros r [o Ho]. rewrite lookup_insert_ne; [done|].
        intros <-. rewrite fresh_ref_None in Ho. discriminate.
    + exists (0 + length (_images pkg)). split.
      * rewrite list_find_app_r by done. simpl. by rewrite decide_True.
      * intros r [o Ho]. rewrite lookup_insert_ne; [done|].
        intros <-. rewrite fresh_ref_None in Ho. discriminate.
Qed.

Lemma Part_set_super_twice (b : BasePart) (o : Part) :
  Part_set_super b (Part_set_super b o) = Part_set_super b o.
Proof. by destruct o. Qed.

Lemma Part_super_set_super (b : BasePart) (o : Part) :
  Part_super (Part_set_super b o) = b.
Proof. by destruct o. Qed.

Lemma blob_of_set_super (b : BasePart) (o : Part) (p : Package) (r : ref) :
  parts p !! self = Some o →
  ImageCollection.blob_of (set_parts (<[self := Part_set_super b o]> (parts p)) p) r
  = ImageCollection.blob_of p r.
Proof.
  intros Ho. unfold ImageCollection.blob_of. simpl.
  destruct (decide (self = r)) as [<-|Hne].
  - rewrite lookup_insert_eq, Ho. by destruct o.
  - by rewrite lookup_insert_ne.
Qed.

(** C9.  Two calls of [_add_image] on a slide-like part, with files of the
    same content: both return, with the same image and the same
    relationship, of type image and to this image, which is one of the
    relationships of the part; the second call leaves the package as the
    first call left it, so it adds no relationship and no image.  In each
    call the image is the one the lookup of the registry answers. *)
Theorem add_image_reuses_relationship :
  ∃ image rel pkg1,
    _BaseSlide._add_image file1 self pkg = Ok ((image, rel), pkg1) ∧
    _BaseSlide._add_image file2 self pkg1 = Ok ((image, rel), pkg1) ∧
    (ImageCollection.add_image file1 pkg).1 = image ∧
    ImageCollection.add_image file2 pkg1 = (image, pkg1) ∧
    ImageCollection.blob_of pkg1 image = Some (file_blob file1) ∧
    reltype rel = RT.IMAGE ∧
    target rel = image ∧
    ∃ o, parts pkg1 !! self = Some o ∧ rel ∈ _relationships (Part_super o).
Proof.
  destruct (add_image_found file1) as (i & Hfind & Hframe).
  unfold _BaseSlide._add_image.
  destruct (ImageCollection.add_image file1 pkg) as [image pkgA] eqn:HA.
  simpl in Hfind, Hframe.
  unfold is_slide_like in Hself.
  destruct (parts pkg !! self) as [o|] eqn:Ho; [|done].
  assert (parts pkgA !! self = Some o) as HoA by (rewrite Hframe; eauto).
  unfold Part_add_relationship at 1. rewrite HoA.
  pose proof (add_relationship_twice RT.IMAGE image (Part_super o)) as Htwice.
  destruct (BasePart._add_relationship RT.IMAGE image (Part_super o))
    as [rel b] eqn:Hrel.
  destruct Htwice as (Hagain & Hin & Htype & Htarget).
  unfold_result.
  set (pkg1 := set_parts (<[self := Part_set_super b o]> (parts pkgA)) pkgA).
  assert (ImageCollection.add_image file2 pkg1 = (image, pkg1)) as Himage2.
  { unfold ImageCollection.add_image. rewrite <- Hsame.
    rewrite (blob_of_ext pkg1 pkgA); [|intros r; by apply blob_of_set_super].
    simpl. by rewrite Hfind. }
  exists image, rel, pkg1. split; [done|]. split; [|split; [done|split; [done|split]]].
  - rewrite Himage2. unfold Part_add_relationship. simpl.
    rewrite lookup_insert_eq, Part_super_set_super, Hagain.
    by rewrite insert_insert_eq, Part_set_super_twice.
  - unfold pkg1. rewrite blob_of_set_super by done.
    by apply list_find_Some in Hfind as (_ & Hblob & _).
  - split; [done|]. split; [done|].
    exists (Part_set_super b o). simpl. rewrite lookup_insert_eq.
    by rewrite Part_super_set_super.
Qed.

End add_image.

(** C9 on the slide of [demo_package_1], the part 2, and two files with the
    same content. *)
Lemma add_image_reuses_relationship_witness :
  ∃ image rel pkg1,
    _BaseSlide._add_image logo 2 demo_package_1 = Ok ((image, rel), pkg1) ∧
    _BaseSlide._add_image logo_copy 2 pkg1 = Ok ((image, rel), pkg1).
Proof.
  destruct (add_image_reuses_relationship logo logo_copy 2 demo_package_1)
    as (image & rel & pkg1 & H1 & H2 & _).
  - by vm_compute.
  - reflexivity.
  - by exists image, rel, pkg1.
Defined.

(** ** Runs *)

Lemma set_partname_renamed (part : ref) (name : string) (pkg pkg' : Package) :
  set_partname part name pkg = Ok pkg' → renamed pkg pkg'.
Proof.
  intros Hset. destruct (parts pkg !! part) as [o|] eqn:Ho.
  - destruct (set_partname_Ok part name pkg) as (pkg'' & Hset' & Hren & _); [eauto|].
    congruence.
  - unfold set_partname in Hset. by rewrite Ho in Hset.
Qed.

Lemma rename_from_renamed (ids : list sldId) :
  ∀ idx pkg pkg',
    SlideCollection._rename_from idx ids pkg = Ok pkg' → renamed pkg pkg'.
Proof.
  induction ids as [|sld ids IH]; intros idx pkg pkg'; simpl; unfold_result.
  - intros [= <-]. apply renamed_refl.
  - destruct (SlideCollection._slide_from_sldId sld pkg) as [slide|]; [|done].
    destruct (set_partname slide _ pkg) as [pkg1|] eqn:Hset; [|done].
    intros Hrest. apply IH in Hrest. apply set_partname_renamed in Hset.
    by eapply renamed_trans.
Qed.

(** Whatever the package, a call of [add_slide] that returns has added one
    entry at the end of the id list. *)
Lemma add_slide_id_list (layout slide : ref) (pkg pkg' : Package) :
  SlideCollection.add_slide layout pkg = Ok (slide, pkg') →
  ∃ sld s, SlideCollection._sldIdLst pkg' = SlideCollection._sldIdLst pkg ++ [sld] ∧
    renamed (set_parts (<[slide := PSlide s]> (parts pkg)) pkg')  pkg' ∧
    parts pkg !! slide = None ∧ is_Some (_shapes (Slide_super s)).
Proof.
  unfold SlideCollection.add_slide. unfold_result.
  destruct (Slide.__init__ (Some layout) pkg) as [[self pkg1]|] eqn:Hinit; [|done].
  apply Slide_init_inv in Hinit as (-> & s & -> & Hs & _).
  destruct (BasePart._add_relationship _ _ _) as [rel prs]. simpl.
  destruct (SlideCollection._rename_slides _) as [pkg4|] eqn:Hloop; [|done].
  intros [= <- <-]. apply rename_from_renamed in Hloop.
  exists {| sldId_rId := rId rel |}, s.
  split; [|split; [|split; [apply fresh_ref_None|done]]].
  - unfold SlideCollection._sldIdLst. by rewrite (proj1 Hloop).
  - destruct Hloop as (Hp & Hi & Hl). split; [done|]. split; [done|].
    intros r. rewrite Hl. done.
Qed.

Lemma add_image_presentation (file : File) (pkg : Package) :
  presentation (ImageCollection.add_image file pkg).2 = presentation pkg.
Proof.
  unfold ImageCollection.add_image. by destruct (list_find _ _) as [[? ?]|].
Qed.

Lemma exec_call_len (c : call) (pkg pkg' : Package) :
  exec_call c pkg = Ok pkg' →
  SlideCollection.__len__ pkg'
  = SlideCollection.__len__ pkg + (if is_Add_slide c then 1 else 0).
Proof.
  unfold SlideCollection.__len__, SlideCollection._sldIdLst.
  destruct c; simpl; unfold_result.
  - destruct (Slide.__init__ slidelayout pkg) as [[self pkg1]|] eqn:Hinit; [|done].
    intros [= <-]. apply Slide_init_inv in Hinit as (_ & s & -> & _). simpl. lia.
  - intros [= <-]. simpl. lia.
  - intros [= <-]. simpl. lia.
  - unfold Part_load. destruct (parts pkg !! part); [|done].
    intros [= <-]. simpl. lia.
  - unfold _BaseSlide._add_image.
    pose proof (add_image_presentation file pkg) as Hprs.
    destruct (ImageCollection.add_image file pkg) as [image pkg1]. simpl in Hprs.
    unfold Part_add_relationship. unfold_result.
    destruct (parts pkg1 !! part); [|done].
    destruct (BasePart._add_relationship _ _ _) as [rel b].
    intros [= <-]. simpl. rewrite Hprs. lia.
  - destruct (Part_shapes part pkg); [|done]. intros [= <-]. lia.
  - destruct (SlideCollection.add_slide slidelayout pkg) as [[slide pkg1]|] eqn:Hadd; [|done].
    intros [= <-]. apply add_slide_id_list in Hadd as (sld & s & Hids & _).
    unfold SlideCollection._sldIdLst in Hids. rewrite Hids, length_app. simpl. lia.
  - destruct (SlideCollection.__getitem__ key pkg); [|done]. intros [= <-]. lia.
  - destruct (SlideCollection.__iter__ pkg); [|done]. intros [= <-]. lia.
  - intros [= <-]. lia.
Qed.

(** C8.  The length of the collection is the length of the id list of the
    presentation, in every package; so it is after every run of calls on the
    package, where it has grown by one for each call of [add_slide] and by
    nothing for the other calls. *)
Theorem len_is_id_list_length (calls : list call) (pkg pkg' : Package) :
  exec calls pkg = Ok pkg' →
  SlideCollection.__len__ pkg = length (sldIdLst (presentation pkg)) ∧
  SlideCollection.__len__ pkg' = length (sldIdLst (presentation pkg')) ∧
  SlideCollection.__len__ pkg'
  = SlideCollection.__len__ pkg + length (filter (λ c, is_Add_slide c) calls).
Proof.
  intros Hrun. split; [done|]. split; [done|].
  revert pkg Hrun. induction calls as [|c calls IH]; intros pkg; simpl; unfold_result.
  - intros [= <-]. lia.
  - destruct (exec_call c pkg) as [pkg1|] eqn:Hcall; [|done].
    intros Hrun. apply IH in Hrun. apply exec_call_len in Hcall.
    rewrite Hrun, Hcall, filter_cons.
    destruct (is_Add_slide c); simpl; lia.
Qed.

(** C8 on a run with two calls of [add_slide] among other calls. *)
Lemma len_is_id_list_length_witness :
  let calls := [Add_slide 1; Getitem 0; Add_image 2 logo; Add_slide 1; Len] in
  let pkg' := package_of (exec calls demo_package) in
  SlideCollection.__len__ pkg' = length (sldIdLst (presentation pkg')) ∧
  SlideCollection.__len__ pkg' = 2.
Proof.
  intros calls pkg'.
  destruct (len_is_id_list_length calls demo_package pkg') as (_ & Hlen & Hcount).
  - by vm_compute.
  - split; [exact Hlen|]. rewrite Hcount. reflexivity.
Defined.

(** ** Shapes along a run *)

Lemma extends_refl (pkg : Package) : extends pkg pkg.
Proof.
  split.
  - intros r o Ho. by exists o.
  - intros r o' Hnone Hsome. congruence.
Qed.

Lemma extends_trans (pkg1 pkg2 pkg3 : Package) :
  extends pkg1 pkg2 → extends pkg2 pkg3 → extends pkg1 pkg3.
Proof.
  intros [Hold1 Hnew1] [Hold2 Hnew2]. split.
  - intros r o Ho.
    destruct (Hold1 r o Ho) as (o2 & Ho2 & Hclass2 & Hshapes2).
    destruct (Hold2 r o2 Ho2) as (o3 & Ho3 & Hclass3 & Hshapes3).
    exists o3. split; [done|]. split; [congruence|auto].
  - intros r o3 Hnone Ho3 Hclass.
    destruct (parts pkg2 !! r) as [o2|] eqn:Ho2.
    + destruct (Hold2 r o2 Ho2) as (o3' & Ho3' & Hclass3 & Hshapes3).
      assert (o3' = o3) as -> by congruence.
      apply Hshapes3, (Hnew1 r); [done..|congruence].
    + by apply (Hnew2 r).
Qed.

Lemma extends_insert_new (pkg pkg' : Package) (r : ref) (o : Part) :
  parts pkg !! r = None →
  (class_of o = CSlide → shapes_ok o = true) →
  parts pkg' = <[r := o]> (parts pkg) →
  extends pkg pkg'.
Proof.
  intros Hnone Hok Hparts. unfold extends. rewrite Hparts. split.
  - intros r' o' Ho'. exists o'. rewrite lookup_insert_ne; [done|congruence].
  - intros r' o' Hnone' Ho' Hclass.
    destruct (decide (r = r')) as [<-|Hne].
    + rewrite lookup_insert_eq in Ho'. injection Ho' as <-. auto.
    + rewrite lookup_insert_ne in Ho' by done. congruence.
Qed.

Lemma extends_update (pkg pkg' : Package) (r : ref) (o o' : Part) :
  parts pkg !! r = Some o →
  class_of o' = class_of o →
  (shapes_ok o = true → shapes_ok o' = true) →
  parts pkg' = <[r := o']> (parts pkg) →
  extends pkg pkg'.
Proof.
  intros Ho Hclass Hok Hparts. unfold extends. rewrite Hparts. split.
  - intros r1 o1 Ho1. destruct (decide (r = r1)) as [<-|Hne].
    + exists o'. rewrite lookup_insert_eq. split; [done|].
      assert (o1 = o) as -> by congruence. by split.
    + exists o1. by rewrite lookup_insert_ne.
  - intros r1 o1 Hnone Ho1 _. destruct (decide (r = r1)) as [<-|Hne].
    + congruence.
    + rewrite lookup_insert_ne in Ho1 by done. congruence.
Qed.

Lemma shapes_ok_erase (o o' : Part) :
  erase_partname o' = erase_partname o → shapes_ok o' = shapes_ok o.
Proof.
  intros Heq. apply erase_partname_BaseSlide in Heq. unfold shapes_ok.
  destruct (Part_BaseSlide o'), (Part_BaseSlide o); simpl in Heq; try done.
  injection Heq as Heq. by rewrite Heq.
Qed.

Lemma extends_renamed (pkg pkg' : Package) : renamed pkg pkg' → extends pkg pkg'.
Proof.
  intros (_ & _ & Hparts). split.
  - intros r o Ho. specialize (Hparts r). rewrite Ho in Hparts.
    destruct (parts pkg' !! r) as [o'|]; [|done].
    apply (inj Some) in Hparts. exists o'. split; [done|].
    split; [by apply erase_partname_class|].
    by rewrite (shapes_ok_erase _ _ Hparts).
  - intros r o' Hnone Ho'. specialize (Hparts r).
    rewrite Hnone, Ho' in Hparts. done.
Qed.

Lemma Part_set_super_class (b : BasePart) (o : Part) :
  class_of (Part_set_super b o) = class_of o ∧
  shapes_ok (Part_set_super b o) = shapes_ok o.
Proof. by destruct o. Qed.

Lemma add_image_extends (file : File) (pkg : Package) :
  extends pkg (ImageCollection.add_image file pkg).2.
Proof.
  unfold ImageCollection.add_image.
  destruct (list_find _ _) as [[? ?]|]; simpl; [apply extends_refl|].
  eapply extends_insert_new; [apply fresh_ref_None| |done]. done.
Qed.

(** A call that returns keeps every part, in its class and with its shapes,
    makes no slide without shapes, and when it is a load, leaves the part
    with its shapes. *)
Lemma exec_call_extends (c : call) (pkg pkg' : Package) :
  exec_call c pkg = Ok pkg' →
  extends pkg pkg' ∧
  ∀ r, is_Load_of r c = true → ∃ o, parts pkg' !! r = Some o ∧ shapes_ok o = true.
Proof.
  destruct c; simpl; unfold_result.
  - destruct (Slide.__init__ slidelayout pkg) as [[self pkg1]|] eqn:Hinit; [|done].
    intros [= <-]. apply Slide_init_inv in Hinit as (-> & s & -> & Hs & _).
    split; [|done].
    eapply extends_insert_new; [apply fresh_ref_None| |done].
    intros _. unfold shapes_ok. simpl. by apply bool_decide_eq_true.
  - intros [= <-]. split; [|done].
    eapply extends_insert_new; [apply fresh_ref_None| |done]. done.
  - intros [= <-]. split; [|done].
    eapply extends_insert_new; [apply fresh_ref_None| |done]. done.
  - unfold Part_load. destruct (parts pkg !! part) as [o|] eqn:Ho; [|done].
    intros [= <-]. split.
    + eapply extends_update; [exact Ho| | |done]; by destruct o.
    + intros r Hr. apply bool_decide_eq_true in Hr as <-. simpl.
      eexists. rewrite lookup_insert_eq. split; [done|]. by destruct o.
  - unfold _BaseSlide._add_image.
    pose proof (add_image_extends file pkg) as Himage.
    destruct (ImageCollection.add_image file pkg) as [image pkg1]. simpl in Himage.
    unfold Part_add_relationship. unfold_result.
    destruct (parts pkg1 !! part) as [o|] eqn:Ho; [|done].
    destruct (BasePart._add_relationship _ _ _) as [rel b].
    intros [= <-]. split; [|done].
    eapply extends_trans; [exact Himage|].
    destruct (Part_set_super_class b o) as [Hclass Hok].
    eapply extends_update; [exact Ho|exact Hclass| |done]. by rewrite Hok.
  - destruct (Part_shapes part pkg); [|done]. intros [= <-].
    split; [apply extends_refl|done].
  - destruct (SlideCollection.add_slide slidelayout pkg) as [[slide pkg1]|] eqn:Hadd; [|done].
    intros [= <-]. apply add_slide_id_list in Hadd as (sld & s & _ & Hren & Hnone & Hs).
    split; [|done].
    eapply extends_trans; [|apply extends_renamed, Hren].
    eapply extends_insert_new; [exact Hnone| |done].
    intros _. unfold shapes_ok. simpl. by apply bool_decide_eq_true.
  - destruct (SlideCollection.__getitem__ key pkg); [|done]. intros [= <-].
    split; [apply extends_refl|done].
  - destruct (SlideCollection.__iter__ pkg); [|done]. intros [= <-].
    split; [apply extends_refl|done].
  - intros [= <-]. split; [apply extends_refl|done].
Qed.

Lemma shapes_inv_run (calls : list call) :
  ∀ before pkg pkg',
    shapes_inv before pkg → exec calls pkg = Ok pkg' →
    shapes_inv (before ++ calls) pkg'.
Proof.
  induction calls as [|c calls IH]; intros before pkg pkg' Hinv; simpl; unfold_result.
  - intros [= <-]. by rewrite app_nil_r.
  - destruct (exec_call c pkg) as [pkg1|] eqn:Hcall; [|done].
    intros Hrun. replace (before ++ c :: calls) with ((before ++ [c]) ++ calls)
      by (by rewrite <- app_assoc).
    apply (IH _ pkg1); [|done]. clear IH Hrun.
    apply exec_call_extends in Hcall as [[Hold Hnew] Hload].
    intros r. destruct (Hinv r) as [Hloaded Hslide]. split.
    + unfold loaded_in in *. rewrite existsb_app. simpl. rewrite orb_false_r.
      intros [Hbefore|Hc]%orb_true_iff; [|by apply Hload].
      destruct (Hloaded Hbefore) as (o & Ho & Hok).
      destruct (Hold r o Ho) as (o' & Ho' & _ & Hok').
      exists o'. auto.
    + intros o' Ho' Hclass. destruct (parts pkg !! r) as [o|] eqn:Ho.
      * destruct (Hold r o Ho) as (o'' & Ho'' & Hclass' & Hok').
        assert (o'' = o') as -> by congruence.
        apply Hok', Hslide; [done|congruence].
      * by apply (Hnew r).
Qed.

(** C10.  [Slide(slidelayout)] returns when no layout is given, and when the
    layout is a part whose shapes are assigned; the slide it returns has its
    shapes, so the accessor gives them.  In a run of calls on a package that
    starts with no part, a part on which [shapes] raises its assertion error
    is a slide layout or a slide master, and no call of the run has loaded
    it. *)
Theorem slide_shapes_assigned_by_constructor :
  (∀ pkg, is_Ok (Slide.__init__ None pkg) = true) ∧
  (∀ layout pkg,
     shapes_assigned layout pkg = true → is_Ok (Slide.__init__ (Some layout) pkg) = true) ∧
  (∀ slidelayout pkg self pkg',
     Slide.__init__ slidelayout pkg = Ok (self, pkg') →
     ∃ s shapes, parts pkg' !! self = Some (PSlide s) ∧
                 _BaseSlide.shapes (Slide_super s) = Ok shapes ∧
                 Part_shapes self pkg' = Ok shapes) ∧
  (∀ calls pkg part msg,
     exec calls empty_package = Ok pkg →
     Part_shapes part pkg = Raise (AssertionError msg) →
     (∃ o, parts pkg !! part = Some o ∧
           (class_of o = CSlideLayout ∨ class_of o = CSlideMaster)) ∧
     loaded_in calls part = false).
Proof.
  split; [done|]. split; [|split].
  - intros layout pkg Hlayout.
    destruct (shapes_assigned_Ok _ _ Hlayout) as [shapes Hshapes].
    by rewrite (Slide_init_layout _ _ _ Hshapes).
  - intros slidelayout pkg self pkg' Hinit.
    apply Slide_init_inv in Hinit as (-> & s & -> & [shapes Hs] & _).
    exists s, shapes. unfold Part_shapes, _BaseSlide.shapes. simpl.
    rewrite lookup_insert_eq. simpl. by rewrite Hs.
  - intros calls pkg part msg Hrun Herr.
    assert (shapes_inv [] empty_package) as Hinit.
    { intros r. split; [done|]. intros o Ho. simpl in Ho.
      by rewrite lookup_empty in Ho. }
    pose proof (shapes_inv_run calls [] _ _ Hinit Hrun) as Hinv. simpl in Hinv.
    destruct (Hinv part) as [Hloaded Hslide]. clear Hinv.
    unfold Part_shapes in Herr.
    destruct (parts pkg !! part) as [o|] eqn:Ho; [|done].
    assert (shapes_ok o = false) as Hnot.
    { unfold shapes_ok. destruct (Part_BaseSlide o) as [b|]; [|done].
      unfold _BaseSlide.shapes in Herr. by destruct (_shapes b). }
    split.
    + exists o. split; [done|]. destruct o as [s| | |i]; simpl; auto.
      * specialize (Hslide _ eq_refl eq_refl). congruence.
      * done.
    + destruct (loaded_in calls part); [|done].
      destruct (Hloaded eq_refl) as (o' & Ho' & Hok). congruence.
Qed.

(** C10 on a run that makes a slide, a slide layout and a slide master, and
    loads the layout only: [shapes] raises on the master, the part 2. *)
Lemma slide_shapes_assigned_by_constructor_witness :
  let calls := [New_Slide None; New_SlideLayout; New_SlideMaster;
                Load 1 (layout_pkgpart 1 2) ∅; New_Slide (Some 1); Shapes 0; Shapes 3] in
  let pkg := package_of (exec calls empty_package) in
  is_Ok (Slide.__init__ (Some 1) pkg) = true ∧
  (∃ o, parts pkg !! 2 = Some o ∧
        (class_of o = CSlideLayout ∨ class_of o = CSlideMaster)) ∧
  loaded_in calls 2 = false.
Proof.
  intros calls pkg.
  destruct slide_shapes_assigned_by_constructor as (_ & Hlayout & _ & Hrun).
  split.
  - apply Hlayout. by vm_compute.
  - apply (Hrun calls pkg 2 "_BaseSlide.shapes referenced before assigned").
    + by vm_compute.
    + by vm_compute.
Defined.

(** * Further properties *)

(** ** Renumbering of any collection *)

(** X1.  [_rename_slides] on any collection whose id list resolves, in a
    package where the presentation is related to live parts: it returns; it
    changes nothing but part names; a part that is no slide of the
    collection keeps even its name; every slide gets the name of its last
    position in the id list, whatever its name was; so when the slides are
    all different the collection is numbered 1, 2, 3, ... in its order. *)
Theorem rename_slides_renumbers (pkg : Package) (slides : list ref) :
  prs_rels_live pkg →
  resolves pkg slides →
  ∃ pkg',
    SlideCollection._rename_slides pkg = Ok pkg' ∧
    renamed pkg pkg' ∧
    (∀ r, r ∉ slides → parts pkg' !! r = parts pkg !! r) ∧
    (∀ i slide, slides !! i = Some slide → slide ∉ drop (S i) slides →
       partname_of slide pkg' = Some (slide_partname (i + 1))) ∧
    (NoDup slides → numbered pkg' slides).
Proof.
  intros Hlive Hres.
  destruct (rename_from_spec (SlideCollection._sldIdLst pkg) slides 0 pkg Hres
              (resolves_live _ _ Hlive Hres))
    as (pkg' & Hloop & Hren & Hframe & Hnames).
  exists pkg'. split; [exact Hloop|]. split; [done|]. split; [done|]. split.
  - intros i slide Hi Hlast. by apply (Hnames i slide).
  - intros Hnodup i slide Hi. apply (Hnames i slide Hi).
    by apply NoDup_lookup_not_later.
Qed.

(** X1 on [gappy_package], whose slides, the parts 2 and 3, are named
    [slide7.xml] and [slide2.xml] before the renaming. *)
Lemma rename_slides_renumbers_witness :
  partname_of 2 gappy_package = Some "/ppt/slides/slide7.xml" ∧
  ∃ pkg',
    SlideCollection._rename_slides gappy_package = Ok pkg' ∧
    partname_of 2 pkg' = Some "/ppt/slides/slide1.xml" ∧
    partname_of 3 pkg' = Some "/ppt/slides/slide2.xml" ∧
    parts pkg' !! 1 = parts gappy_package !! 1.
Proof.
  split; [reflexivity|].
  destruct (rename_slides_renumbers gappy_package [2; 3])
    as (pkg' & Hloop & _ & Hframe & _ & Hnum).
  - apply (bool_decide_unpack _). by vm_compute.
  - unfold resolves. vm_compute. by repeat constructor.
  - exists pkg'. split; [exact Hloop|].
    assert (NoDup [2; 3]) as Hnodup.
    { repeat constructor; [|apply not_elem_of_nil].
      intros Hin%list_elem_of_singleton. discriminate. }
    split; [exact (Hnum Hnodup 0 2 eq_refl)|].
    split; [exact (Hnum Hnodup 1 3 eq_refl)|].
    apply Hframe. intros Hin.
    apply elem_of_cons in Hin as [Hin|Hin%list_elem_of_singleton]; discriminate.
Defined.

Lemma set_partname_same (part : ref) (name : string) (pkg : Package) :
  partname_of part pkg = Some name → set_partname part name pkg = Ok pkg.
Proof.
  unfold partname_of, set_partname.
  destruct (parts pkg !! part) as [o|] eqn:Ho; simpl; [|done].
  intros Hname. f_equal.
  assert (Part_set_super
            {| content_type := content_type (Part_super o); partname := Some name;
               _relationships := _relationships (Part_super o) |} o = o) as ->.
  { destruct o as [[[[] ? ?] ?]|[[[] ? ?] ?]|[[[] ? ?] ?]|[[] ?]];
      simpl in *; by rewrite Hname. }
  rewrite insert_id by done. by destruct pkg.
Qed.

Lemma rename_from_fixed (ids : list sldId) (slides : list ref) :
  ∀ idx pkg,
    Forall2 (λ sld slide, SlideCollection._slide_from_sldId sld pkg = Ok slide)
            ids slides →
    (∀ i slide, slides !! i = Some slide →
       partname_of slide pkg = Some (slide_partname (idx + i + 1))) →
    SlideCollection._rename_from idx ids pkg = Ok pkg.
Proof.
  revert slides. induction ids as [|sld ids IH]; intros slides idx pkg Hres Hnum;
    inversion Hres as [|? slide ? slides' Hsld Hres']; subst; simpl; [done|].
  unfold_result. rewrite Hsld.
  rewrite set_partname_same.
  - apply (IH slides'); [done|]. intros i slide' Hi.
    replace (S idx + i + 1) with (idx + S i + 1) by lia. by apply Hnum.
  - replace (idx + 1) with (idx + 0 + 1) by lia. by apply Hnum.
Qed.

(** X2.  [_rename_slides] is idempotent on a collection of different
    slides: run on the package a first run leaves, it returns this package
    unchanged.  More generally it changes nothing in a package whose slides
    have the names of their positions already. *)
Theorem rename_slides_idempotent (pkg : Package) (slides : list ref) :
  prs_rels_live pkg →
  resolves pkg slides →
  NoDup slides →
  ∃ pkg',
    SlideCollection._rename_slides pkg = Ok pkg' ∧
    SlideCollection._rename_slides pkg' = Ok pkg' ∧
    (numbered pkg slides → pkg' = pkg).
Proof.
  intros Hlive Hres Hnodup.
  destruct (rename_from_spec (SlideCollection._sldIdLst pkg) slides 0 pkg Hres
              (resolves_live _ _ Hlive Hres))
    as (pkg' & Hloop & Hren & _ & Hnames).
  exists pkg'. split; [exact Hloop|]. split.
  - unfold SlideCollection._rename_slides, SlideCollection._sldIdLst.
    rewrite (proj1 Hren). apply (rename_from_fixed _ slides).
    + eapply Forall2_impl; [exact Hres|]. simpl. intros sld slide <-.
      by apply renamed_slide_from_sldId.
    + intros i slide Hi. apply (Hnames i slide Hi).
      by apply NoDup_lookup_not_later.
  - intros Hnum. unfold SlideCollection._rename_slides in Hloop.
    rewrite (rename_from_fixed _ slides 0 pkg Hres) in Hloop; [congruence|].
    intros i slide Hi. by apply Hnum.
Qed.

(** X2 on [gappy_package]. *)
Lemma rename_slides_idempotent_witness :
  ∃ pkg',
    SlideCollection._rename_slides gappy_package = Ok pkg' ∧
    SlideCollection._rename_slides pkg' = Ok pkg'.
Proof.
  destruct (rename_slides_idempotent gappy_package [2; 3]) as (pkg' & H1 & H2 & _).
  - apply (bool_decide_unpack _). by vm_compute.
  - unfold resolves. vm_compute. by repeat constructor.
  - repeat constructor; [|apply not_elem_of_nil].
    intros Hin%list_elem_of_singleton. discriminate.
  - by exists pkg'.
Defined.

(** ** [add_slide] on a collection that has slides *)

(** X3.  [add_slide] on a collection of different slides, whatever their
    names: it returns a new part; the collection iterates to the slides it
    had, in their order, and then the new one; all of them have the names of
    their positions afterwards; the image registry is as it was; a part that
    is neither a slide of the collection nor the new slide is as it was, its
    name included; and a slide of the collection changes in its name only. *)
Theorem add_slide_appends_and_renumbers (layout : ref) (pkg : Package)
    (slides : list ref) :
  prs_rels_live pkg →
  resolves pkg slides →
  NoDup slides →
  shapes_assigned layout pkg = true →
  ∃ slide pkg',
    SlideCollection.add_slide layout pkg = Ok (slide, pkg') ∧
    parts pkg !! slide = None ∧
    SlideCollection.__iter__ pkg' = Ok (slides ++ [slide]) ∧
    numbered pkg' (slides ++ [slide]) ∧
    _images pkg' = _images pkg ∧
    (∀ r, r ∉ slides → r ≠ slide → parts pkg' !! r = parts pkg !! r) ∧
    (∀ r o, parts pkg !! r = Some o →
       ∃ o', parts pkg' !! r = Some o' ∧ erase_partname o' = erase_partname o).
Proof.
  intros Hlive Hres Hnodup Hlayout.
  destruct (add_slide_inv layout pkg slides Hlive Hres Hnodup Hlayout)
    as (pkg' & Hadd & _ & Hres' & _ & Hnum & _).
  destruct (shapes_assigned_Ok _ _ Hlayout) as [layout_shapes Hshapes].
  destruct (add_slide_spec layout pkg layout_shapes slides Hlive Hshapes Hres)
    as (pkg'' & _ & Hadd' & Hren & Hframe & _).
  assert (pkg'' = pkg') as -> by congruence.
  exists (fresh_ref pkg), pkg'. split; [done|]. split; [apply fresh_ref_None|].
  split; [by apply mapM_Ok|]. split; [done|].
  split; [exact (proj1 (proj2 Hren))|]. split.
  - intros r Hr Hne. rewrite Hframe.
    + simpl. by rewrite lookup_insert_ne.
    + intros [Hin|Hin%list_elem_of_singleton]%elem_of_app; done.
  - intros r o Ho. destruct Hren as (_ & _ & Hparts). specialize (Hparts r).
    simpl in Hparts. rewrite lookup_insert_ne in Hparts.
    + rewrite Ho in Hparts. destruct (parts pkg' !! r) as [o'|]; [|done].
      apply (inj Some) in Hparts. by exists o'.
    + intros <-. rewrite fresh_ref_None in Ho. discriminate.
Qed.

(** X3 on [gappy_package] and its layout. *)
Lemma add_slide_appends_and_renumbers_witness :
  ∃ slide pkg',
    SlideCollection.add_slide 1 gappy_package = Ok (slide, pkg') ∧
    SlideCollection.__iter__ pkg' = Ok [2; 3; slide] ∧
    partname_of 2 pkg' = Some "/ppt/slides/slide1.xml" ∧
    partname_of slide pkg' = Some "/ppt/slides/slide3.xml".
Proof.
  destruct (add_slide_appends_and_renumbers 1 gappy_package [2; 3])
    as (slide & pkg' & Hadd & _ & Hiter & Hnum & _).
  - apply (bool_decide_unpack _). by vm_compute.
  - unfold resolves. vm_compute. by repeat constructor.
  - repeat constructor; [|apply not_elem_of_nil].
    intros Hin%list_elem_of_singleton. discriminate.
  - by vm_compute.
  - exists slide, pkg'. split; [exact Hadd|]. split; [exact Hiter|].
    split; [exact (Hnum 0 2 eq_refl)|exact (Hnum 2 slide eq_refl)].
Defined.

(** ** Indexing and iteration *)

(** X4.  Indexing agrees with iteration.  When the iteration of the
    collection returns, it gives as many slides as the length of the
    collection, [collection[key]] for a [key] from 0 to the length is the
    slide the iteration gives at this position, and for a negative [key] from
    minus the length it is the one at [key] plus the length. *)
Theorem getitem_agrees_with_iter (pkg : Package) (slides : list ref) (key : Z) :
  SlideCollection.__iter__ pkg = Ok slides →
  length slides = SlideCollection.__len__ pkg ∧
  ((0 ≤ key < Z.of_nat (SlideCollection.__len__ pkg))%Z →
     ∃ slide, slides !! Z.to_nat key = Some slide ∧
              SlideCollection.__getitem__ key pkg = Ok slide) ∧
  ((- Z.of_nat (SlideCollection.__len__ pkg) ≤ key < 0)%Z →
     ∃ slide,
       slides !! Z.to_nat (key + Z.of_nat (SlideCollection.__len__ pkg)) = Some slide ∧
       SlideCollection.__getitem__ key pkg = Ok slide).
Proof.
  intros Hiter. apply mapM_Ok in Hiter.
  pose proof (Forall2_length _ _ _ Hiter) as Hlen.
  unfold SlideCollection.__len__, SlideCollection.__getitem__.
  set (ids := SlideCollection._sldIdLst pkg) in *.
  assert (∀ k, (0 ≤ k < Z.of_nat (length ids))%Z →
            ∃ slide, slides !! Z.to_nat k = Some slide ∧
              (sld ← seq_getitem ids k; SlideCollection._slide_from_sldId sld pkg)
              = Ok slide) as Hin.
  { intros k Hk.
    destruct (seq_getitem_in_range ids k Hk) as (sld & Hsld & ->).
    destruct (Forall2_lookup_l _ _ _ _ _ Hiter Hsld) as (slide & Hslide & Hres).
    by exists slide. }
  split; [done|]. split.
  - intros Hkey. destruct (decide _); [lia|]. by apply Hin.
  - intros Hkey. destruct (decide _); [lia|].
    rewrite seq_getitem_negative by done. apply Hin. lia.
Qed.

(** X4 on [demo_package_2], whose collection iterates to the parts 2 and 3. *)
Lemma getitem_agrees_with_iter_witness :
  SlideCollection.__getitem__ 1 demo_package_2 = Ok 3 ∧
  SlideCollection.__getitem__ (-2) demo_package_2 = Ok 2.
Proof.
  split.
  - destruct (getitem_agrees_with_iter demo_package_2 [2; 3] 1) as (_ & H & _);
      [reflexivity|].
    destruct H as (slide & Hslide & ->); [by vm_compute|].
    vm_compute in Hslide. by injection Hslide as <-.
  - destruct (getitem_agrees_with_iter demo_package_2 [2; 3] (-2)) as (_ & _ & H);
      [reflexivity|].
    destruct H as (slide & Hslide & ->); [by vm_compute|].
    vm_compute in Hslide. by injection Hslide as <-.
Defined.

(** ** The constructor of a slide *)

(** X5.  [Slide(slidelayout)], when it returns, has made one new part and
    touched nothing else: the parts there were, the presentation and the
    image registry are as they were, so the collection has the length and
    the slides it had, and the new slide is none of them: only [add_slide]
    puts it there.  The slide has one relationship, to its layout, when a
    layout is given, and none otherwise. *)
Theorem slide_constructor_frame (slidelayout : option ref) (pkg pkg' : Package)
    (self : ref) :
  Slide.__init__ slidelayout pkg = Ok (self, pkg') →
  parts pkg !! self = None ∧
  presentation pkg' = presentation pkg ∧
  _images pkg' = _images pkg ∧
  (∀ r, r ≠ self → parts pkg' !! r = parts pkg !! r) ∧
  SlideCollection.__len__ pkg' = SlideCollection.__len__ pkg ∧
  SlideCollection.__iter__ pkg' = SlideCollection.__iter__ pkg ∧
  (prs_rels_live pkg → ∀ slides, SlideCollection.__iter__ pkg = Ok slides → self ∉ slides) ∧
  ∃ s, parts pkg' !! self = Some (PSlide s) ∧
       _slidelayout s = slidelayout ∧
       _relationships (super (Slide_super s))
       = match slidelayout with
         | Some layout => [mkRel 1 RT.SLIDE_LAYOUT layout]
         | None => []
         end.
Proof.
  intros Hinit.
  assert (∃ s, pkg' = set_parts (<[self := PSlide s]> (parts pkg)) pkg ∧
               self = fresh_ref pkg ∧ _slidelayout s = slidelayout ∧
               _relationships (super (Slide_super s))
               = match slidelayout with
                 | Some layout => [mkRel 1 RT.SLIDE_LAYOUT layout]
                 | None => []
                 end) as (s & -> & -> & Hlayout & Hrels).
  { unfold Slide.__init__ in Hinit. unfold_result.
    destruct slidelayout as [layout|].
    - destruct (_clone_layout_placeholders layout pkg _) as [shapes|]; [|done].
      simpl in Hinit. injection Hinit as <- <-. by eexists.
    - injection Hinit as <- <-. by eexists. }
  split; [apply fresh_ref_None|]. split; [done|]. split; [done|].
  split; [intros r Hne; simpl; by rewrite lookup_insert_ne|].
  split; [done|]. split; [done|]. split.
  - intros Hlive slides Hiter%mapM_Ok Hin.
    apply (proj1 (Forall_forall _ _) (resolves_live _ _ Hlive Hiter)) in Hin as [o Ho].
    rewrite fresh_ref_None in Ho. discriminate.
  - exists s. simpl. by rewrite lookup_insert_eq.
Qed.

(** X5 on [demo_package_1] and its layout. *)
Lemma slide_constructor_frame_witness :
  let new := package_of (exec [New_Slide (Some 1)] demo_package_1) in
  SlideCollection.__len__ new = 1 ∧
  SlideCollection.__iter__ new = Ok [2] ∧
  parts new !! 2 = parts demo_package_1 !! 2.
Proof.
  intros new.
  destruct (slide_constructor_frame (Some 1) demo_package_1 new 3)
    as (_ & _ & _ & Hframe & Hlen & Hiter & _).
  - by vm_compute.
  - split; [by rewrite Hlen|]. split; [by rewrite Hiter|].
    by apply Hframe.
Defined.

(** ** Construction, then loading *)

Lemma resolved_app_other (rtype : RT.t) (rels more : list Relationship)
    (before : option ref) :
  Forall (λ rel, reltype rel ≠ rtype) more →
  resolved rtype (rels ++ more) before = resolved rtype rels before.
Proof.
  intros Hmore. unfold resolved. rewrite filter_app.
  replace (filter (λ rel, reltype rel = rtype) more) with (@nil Relationship).
  - by rewrite app_nil_r.
  - symmetry. induction Hmore as [|rel more Hrel _ IH]; [done|].
    by rewrite filter_cons, decide_False.
Qed.

Lemma resolved_None (rtype : RT.t) (rels : list Relationship) (before : option ref) :
  Forall (λ rel, reltype rel ≠ rtype) rels → resolved rtype rels before = before.
Proof. intros Hrels. by rewrite <- (app_nil_l rels), resolved_app_other. Qed.

Lemma resolved_Some (rtype : RT.t) (rels : list Relationship) (before : option ref)
    (rel : Relationship) :
  rel ∈ rels → reltype rel = rtype →
  ∃ rel', rel' ∈ rels ∧ reltype rel' = rtype ∧
          resolved rtype rels before = Some (target rel').
Proof.
  intros Hin Htype. unfold resolved.
  destruct (last (filter (λ rel, reltype rel = rtype) rels)) as [rel'|] eqn:Hlast.
  - apply last_Some_elem_of, list_elem_of_filter in Hlast as [? ?]. by exists rel'.
  - apply last_None in Hlast.
    assert (rel ∈ filter (λ rel, reltype rel = rtype) rels) as Hrel
      by by apply list_elem_of_filter.
    rewrite Hlast in Hrel. by apply not_elem_of_nil in Hrel.
Qed.

(** X6.  The relationships a new slide is given tell its layout again.
    Take the slide [Slide(layout)] has made, then load a slide, any, from a
    package part that carries the relationships of this slide, followed or
    not by relationships of other types (to images, say): its layout is
    [layout]. *)
Theorem slide_layout_round_trip (layout : ref) (pkg pkg' : Package) (self : ref) :
  Slide.__init__ (Some layout) pkg = Ok (self, pkg') →
  ∃ s, parts pkg' !! self = Some (PSlide s) ∧
    ∀ pkgpart part_dict self_ref s0 more,
      pkg_relationships pkgpart = _relationships (super (Slide_super s)) ++ more →
      Forall (λ rel, reltype rel ≠ RT.SLIDE_LAYOUT) more →
      Slide.slidelayout (Slide._load pkgpart part_dict self_ref s0) = Ok (Some layout).
Proof.
  intros Hinit. unfold Slide.__init__ in Hinit. unfold_result.
  destruct (_clone_layout_placeholders layout pkg _) as [shapes|]; [|done].
  simpl in Hinit. injection Hinit as <- <-.
  eexists. split; [simpl; by rewrite lookup_insert_eq|].
  intros pkgpart part_dict self_ref s0 more Hrels Hmore.
  unfold Slide.slidelayout. simpl. rewrite resolve_loop, Hrels.
  by rewrite resolved_app_other.
Qed.

(** X6 on the slide [Slide(layout)] makes in [demo_package_1] from the
    layout 1, and a package part with its relationship. *)
Lemma slide_layout_round_trip_witness :
  Slide.slidelayout
    (Slide._load (slide_pkgpart "/ppt/slides/slide1.xml" 1) ∅ 9
       {| Slide_super := _BaseSlide.__init__ (Some CT.PML_SLIDE); _slidelayout := None |})
  = Ok (Some 1).
Proof.
  destruct (slide_layout_round_trip 1 demo_package_1
              (package_of (exec [New_Slide (Some 1)] demo_package_1)) 3)
    as (s & Hs & Hload); [by vm_compute|].
  apply (Hload _ _ _ _ []); [|constructor].
  vm_compute in Hs. injection Hs as <-. reflexivity.
Defined.

(** X7.  What the accessors answer after a load.  On a slide layout that is
    new, [slidemaster] still raises after the load when the package part has
    no master relationship, and returns the target of one of its master
    relationships when it has some.  On a slide without layout,
    [slidelayout] is still [None] after the load when the package part has no
    layout relationship, and the target of one of them otherwise. *)
Theorem accessors_after_load (pkgpart : PackagePart) (part_dict : gmap string ref)
    (self_ref : ref) (base : _BaseSlide) :
  let layout := SlideLayout._load pkgpart part_dict self_ref SlideLayout.__init__ in
  let slide := Slide._load pkgpart part_dict self_ref
                 {| Slide_super := base; _slidelayout := None |} in
  (Forall (λ rel, reltype rel ≠ RT.SLIDE_MASTER) (pkg_relationships pkgpart) →
     SlideLayout.slidemaster layout
     = Raise (AssertionError "SlideLayout.slidemaster referenced before assigned")) ∧
  (∀ rel, rel ∈ pkg_relationships pkgpart → reltype rel = RT.SLIDE_MASTER →
     ∃ rel', rel' ∈ pkg_relationships pkgpart ∧ reltype rel' = RT.SLIDE_MASTER ∧
             SlideLayout.slidemaster layout = Ok (target rel')) ∧
  (Forall (λ rel, reltype rel ≠ RT.SLIDE_LAYOUT) (pkg_relationships pkgpart) →
     Slide.slidelayout slide = Ok None) ∧
  (∀ rel, rel ∈ pkg_relationships pkgpart → reltype rel = RT.SLIDE_LAYOUT →
     ∃ rel', rel' ∈ pkg_relationships pkgpart ∧ reltype rel' = RT.SLIDE_LAYOUT ∧
             Slide.slidelayout slide = Ok (Some (target rel'))).
Proof.
  intros layout slide.
  unfold SlideLayout.slidemaster, Slide.slidelayout. subst layout slide. simpl.
  rewrite !resolve_loop. split; [|split; [|split]].
  - intros Hnone. by rewrite resolved_None.
  - intros rel Hin Htype.
    destruct (resolved_Some _ _ None rel Hin Htype) as (rel' & Hin' & Htype' & ->).
    by exists rel'.
  - intros Hnone. by rewrite resolved_None.
  - intros rel Hin Htype.
    destruct (resolved_Some _ _ None rel Hin Htype) as (rel' & Hin' & Htype' & ->).
    by exists rel'.
Qed.

(** X7 on a package part of a slide, which has a layout relationship and no
    master relationship. *)
Lemma accessors_after_load_witness :
  SlideLayout.slidemaster
    (SlideLayout._load (slide_pkgpart "/ppt/slides/slide1.xml" 1) ∅ 0 SlideLayout.__init__)
  = Raise (AssertionError "SlideLayout.slidemaster referenced before assigned") ∧
  ∃ rel', reltype rel' = RT.SLIDE_LAYOUT ∧
    Slide.slidelayout
      (Slide._load (slide_pkgpart "/ppt/slides/slide1.xml" 1) ∅ 0
         {| Slide_super := _BaseSlide.__init__ None; _slidelayout := None |})
    = Ok (Some (target rel')).
Proof.
  destruct (accessors_after_load (slide_pkgpart "/ppt/slides/slide1.xml" 1) ∅ 0
              (_BaseSlide.__init__ None)) as (Hmaster & _ & _ & Hlayout).
  split.
  - apply Hmaster. by repeat constructor.
  - destruct (Hlayout (mkRel 1 RT.SLIDE_LAYOUT 1)) as (rel' & _ & Htype & Hres).
    + by apply list_elem_of_singleton.
    + reflexivity.
    + by exists rel'.
Defined.

(** X8.  Loading again.  A slide and a slide layout loaded twice from a
    package part are as after the first load.  A slide master is not: each
    load adds the targets of the layout relationships to its layouts, so they
    are there twice after two loads. *)
Theorem load_twice (pkgpart : PackagePart) (part_dict : gmap string ref)
    (self_ref : ref) :
  (∀ s, Slide._load pkgpart part_dict self_ref
          (Slide._load pkgpart part_dict self_ref s)
        = Slide._load pkgpart part_dict self_ref s) ∧
  (∀ l, SlideLayout._load pkgpart part_dict self_ref
          (SlideLayout._load pkgpart part_dict self_ref l)
        = SlideLayout._load pkgpart part_dict self_ref l) ∧
  (∀ m, SlideMaster.slidelayouts
          (SlideMaster._load pkgpart part_dict self_ref
             (SlideMaster._load pkgpart part_dict self_ref m))
        = SlideMaster.slidelayouts m ++
          (target <$> filter (λ rel, reltype rel = RT.SLIDE_LAYOUT)
                             (pkg_relationships pkgpart)) ++
          (target <$> filter (λ rel, reltype rel = RT.SLIDE_LAYOUT)
                             (pkg_relationships pkgpart))).
Proof.
  assert (∀ rtype rels before,
            resolved rtype rels (resolved rtype rels before)
            = resolved rtype rels before) as Hidem.
  { intros rtype rels before. unfold resolved. by destruct (last _). }
  split; [|split].
  - intros s. unfold Slide._load. simpl. f_equal. rewrite !resolve_loop. apply Hidem.
  - intros l. unfold SlideLayout._load. simpl. f_equal. rewrite !resolve_loop. apply Hidem.
  - intros m. unfold SlideMaster.slidelayouts. simpl.
    by rewrite !loadpart_loop, <- app_assoc.
Qed.

(** ** Loading a part of the package *)

(** X9.  The load of a slide-like part of the package, of whichever class,
    returns and leaves the part in its class with a shape collection made of
    the shape tree of the element of the package part and of the part
    itself, in place of the shapes it had; its [name] is then the name of the
    element, or the empty string when the element has none.  No other part
    changes, nor the presentation. *)
Theorem load_assigns_shapes (part : ref) (pkgpart : PackagePart)
    (part_dict : gmap string ref) (pkg : Package) :
  is_slide_like part pkg = true →
  ∃ pkg' o o' b',
    Part_load part pkgpart part_dict pkg = Ok pkg' ∧
    parts pkg !! part = Some o ∧
    parts pkg' !! part = Some o' ∧
    class_of o' = class_of o ∧
    Part_BaseSlide o' = Some b' ∧
    Part_shapes part pkg'
    = Ok {| sc_spTree := cSld_spTree (pkg_element pkgpart); sc_slide := part |} ∧
    _BaseSlide.name b' = Ok (default "" (cSld_name (pkg_element pkgpart))) ∧
    (∀ r, r ≠ part → parts pkg' !! r = parts pkg !! r) ∧
    presentation pkg' = presentation pkg.
Proof.
  unfold is_slide_like, Part_load, Part_shapes.
  destruct (parts pkg !! part) as [o|] eqn:Ho; [|done].
  intros [b Hb]%bool_decide_eq_true.
  destruct o as [s|l|m|i]; [| | |done];
    (eexists _, _, _, _; split; [reflexivity|]; split; [reflexivity|]; simpl;
     rewrite !lookup_insert_eq; split; [reflexivity|]; split; [reflexivity|];
     split; [reflexivity|]; split; [reflexivity|]; split; [reflexivity|];
     split; [intros r Hne; by rewrite lookup_insert_ne | reflexivity]).
Qed.

(** X9 on the first slide of [demo_package_2], whose shapes are the
    placeholder of its layout before the load. *)
Lemma load_assigns_shapes_witness :
  ∃ pkg',
    Part_load 2 (slide_pkgpart "/ppt/slides/slide7.xml" 1) ∅ demo_package_2 = Ok pkg' ∧
    Part_shapes 2 pkg' = Ok {| sc_spTree := cSld_spTree plain_element; sc_slide := 2 |}.
Proof.
  destruct (load_assigns_shapes 2 (slide_pkgpart "/ppt/slides/slide7.xml" 1) ∅ demo_package_2)
    as (pkg' & o & o' & b' & Hload & _ & _ & _ & _ & Hshapes & _).
  - by vm_compute.
  - by exists pkg'.
Defined.

(** X10.  The [name] of a slide [Slide(slidelayout)] has made is the empty
    string, with a layout or without, whatever the name of the layout: the
    minimal element has no name on its [cSld], and cloning the placeholders
    does not give it one. *)
Theorem new_slide_name (slidelayout : option ref) (pkg pkg' : Package) (self : ref) :
  Slide.__init__ slidelayout pkg = Ok (self, pkg') →
  ∃ s, parts pkg' !! self = Some (PSlide s) ∧ _BaseSlide.name (Slide_super s) = Ok "".
Proof.
  intros Hinit. unfold Slide.__init__ in Hinit. unfold_result.
  destruct slidelayout as [layout|].
  - destruct (_clone_layout_placeholders layout pkg _) as [shapes|]; [|done].
    simpl in Hinit. injection Hinit as <- <-.
    eexists. split; [simpl; by rewrite lookup_insert_eq|done].
  - injection Hinit as <- <-.
    eexists. split; [simpl; by rewrite lookup_insert_eq|done].
Qed.

(** X10 on [demo_package], whose layout has the name [Title Slide]. *)
Lemma new_slide_name_witness :
  (o ← parts demo_package !! 1; b ← Part_BaseSlide o; Some (_BaseSlide.name b))
  = Some (Ok "Title Slide") ∧
  ∃ s, parts (package_of (exec [New_Slide (Some 1)] demo_package)) !! 2 = Some (PSlide s) ∧
       _BaseSlide.name (Slide_super s) = Ok "".
Proof.
  split; [reflexivity|].
  apply (new_slide_name (Some 1) demo_package). by vm_compute.
Defined.

(** ** The collection along a run *)

Lemma exec_call_presentation (c : call) (pkg pkg' : Package) :
  is_Add_slide c = false →
  exec_call c pkg = Ok pkg' → presentation pkg' = presentation pkg.
Proof.
  destruct c; simpl; unfold_result; try done; intros _.
  - destruct (Slide.__init__ slidelayout pkg) as [[self pkg1]|] eqn:Hinit; [|done].
    intros [= <-]. by apply Slide_init_inv in Hinit as (_ & s & -> & _).
  - by intros [= <-].
  - by intros [= <-].
  - unfold Part_load. destruct (parts pkg !! part); [|done]. by intros [= <-].
  - unfold _BaseSlide._add_image.
    pose proof (add_image_presentation file pkg) as Hprs.
    destruct (ImageCollection.add_image file pkg) as [image pkg1]. simpl in Hprs.
    unfold Part_add_relationship. unfold_result.
    destruct (parts pkg1 !! part); [|done].
    destruct (BasePart._add_relationship _ _ _) as [rel b].
    by intros [= <-].
  - destruct (Part_shapes part pkg); [|done]. by intros [= <-].
  - destruct (SlideCollection.__getitem__ key pkg); [|done]. by intros [= <-].
  - destruct (SlideCollection.__iter__ pkg); [|done]. by intros [= <-].
  - by intros [= <-].
Qed.

Lemma add_slide_Ok_layout (layout slide : ref) (pkg pkg' : Package) :
  SlideCollection.add_slide layout pkg = Ok (slide, pkg') →
  shapes_assigned layout pkg = true.
Proof.
  unfold SlideCollection.add_slide, Slide.__init__, _clone_layout_placeholders,
    shapes_assigned.
  unfold_result. by destruct (Part_shapes layout pkg).
Qed.

Lemma exec_collection_inv (calls : list call) :
  ∀ pkg pkg' slides,
    prs_rels_live pkg → resolves pkg slides → NoDup slides →
    Forall (λ slide, ∃ o, parts pkg !! slide = Some o ∧ class_of o = CSlide) slides →
    exec calls pkg = Ok pkg' →
    ∃ new,
      prs_rels_live pkg' ∧ resolves pkg' (slides ++ new) ∧ NoDup (slides ++ new) ∧
      Forall (λ slide, ∃ o, parts pkg' !! slide = Some o ∧ class_of o = CSlide)
             (slides ++ new) ∧
      length new = length (filter (λ c, is_Add_slide c) calls).
Proof.
  induction calls as [|c calls IH]; intros pkg pkg' slides Hlive Hres Hnodup Hclass;
    simpl; unfold_result.
  - intros [= <-]. exists []. by rewrite app_nil_r.
  - destruct (exec_call c pkg) as [pkg1|] eqn:Hcall; [|done]. intros Hrun.
    pose proof (exec_call_extends _ _ _ Hcall) as [[Hold _] _].
    assert (Forall (λ slide, ∃ o, parts pkg1 !! slide = Some o ∧ class_of o = CSlide)
                   slides) as Hclass1.
    { eapply Forall_impl; [exact Hclass|]. simpl. intros slide (o & Ho & Hc).
      destruct (Hold slide o Ho) as (o' & Ho' & Hc' & _). exists o'. split; [done|congruence]. }
    rewrite filter_cons.
    destruct (is_Add_slide c) eqn:Hadd.
    + destruct c; try done. simpl in Hcall. unfold_result.
      destruct (SlideCollection.add_slide slidelayout pkg) as [[slide pkg2]|] eqn:Hslide;
        [|done].
      injection Hcall as ->.
      pose proof (add_slide_Ok_layout _ _ _ _ Hslide) as Hlayout.
      destruct (add_slide_inv slidelayout pkg slides Hlive Hres Hnodup Hlayout)
        as (pkg2 & Hslide' & Hlive2 & Hres2 & Hnodup2 & _).
      assert (slide = fresh_ref pkg ∧ pkg2 = pkg1) as [-> ->] by (split; congruence).
      destruct (IH pkg1 pkg' (slides ++ [fresh_ref pkg]) Hlive2 Hres2 Hnodup2)
        as (new & Hlive' & Hres' & Hnodup' & Hclass' & Hlen); [|done|].
      { apply Forall_app. split; [done|]. constructor; [|constructor].
        apply add_slide_id_list in Hslide as (_ & s & _ & (_ & _ & Hparts) & _).
        specialize (Hparts (fresh_ref pkg)). simpl in Hparts.
        rewrite lookup_insert_eq in Hparts.
        destruct (parts pkg1 !! fresh_ref pkg) as [o|]; [|done].
        apply (inj Some) in Hparts. exists o. split; [done|].
        symmetry in Hparts. by apply erase_partname_class in Hparts. }
      exists (fresh_ref pkg :: new). rewrite <- app_assoc in *. simpl in *.
      repeat split; try done. by rewrite Hlen.
    + pose proof (exec_call_presentation _ _ _ Hadd Hcall) as Hprs.
      destruct (IH pkg1 pkg' slides) as (new & H); [| |done|done|done|].
      * unfold prs_rels_live, SlideCollection._prs_rels in *. rewrite Hprs.
        eapply Forall_impl; [exact Hlive|]. simpl. intros rel [o Ho].
        destruct (Hold _ o Ho) as (o' & Ho' & _). eauto.
      * unfold resolves, SlideCollection._sldIdLst, SlideCollection._slide_from_sldId,
          SlideCollection._prs_rels in *. by rewrite Hprs.
      * exists new. simpl. exact H.
Qed.

(** X11.  In every package a run of calls reaches from the package with no
    part, the iteration of the collection returns: every entry of the id list
    resolves.  It gives one part for each call of [add_slide] of the run,
    these parts are all different, and each one is a slide. *)
Theorem reachable_collection_iterates (calls : list call) (pkg : Package) :
  exec calls empty_package = Ok pkg →
  ∃ slides,
    SlideCollection.__iter__ pkg = Ok slides ∧
    NoDup slides ∧
    length slides = length (filter (λ c, is_Add_slide c) calls) ∧
    SlideCollection.__len__ pkg = length slides ∧
    Forall (λ slide, ∃ s, parts pkg !! slide = Some (PSlide s)) slides.
Proof.
  intros Hrun.
  destruct (exec_collection_inv calls empty_package pkg [])
    as (slides & _ & Hres & Hnodup & Hclass & Hlen); try done; try constructor.
  simpl in *. exists slides. split; [by apply mapM_Ok|]. split; [done|].
  split; [done|]. split.
  - unfold SlideCollection.__len__. by rewrite (Forall2_length _ _ _ Hres).
  - eapply Forall_impl; [exact Hclass|]. simpl. intros slide (o & Ho & Hc).
    destruct o as [s| | |]; try done. by exists s.
Qed.

(** X11 on a run that makes a master and a layout, loads the layout, adds
    two slides, puts an image on the first and loads it again. *)
Lemma reachable_collection_iterates_witness :
  let calls := [New_SlideMaster; New_SlideLayout; Load 1 (layout_pkgpart 1 0) ∅;
                Add_slide 1; Add_image 2 logo; Add_slide 1;
                Load 2 (slide_pkgpart "/ppt/slides/slide7.xml" 1) ∅] in
  ∃ slides,
    SlideCollection.__iter__ (package_of (exec calls empty_package)) = Ok slides ∧
    length slides = 2.
Proof.
  intros calls.
  destruct (reachable_collection_iterates calls (package_of (exec calls empty_package)))
    as (slides & Hiter & _ & Hlen & _).
  - by vm_compute.
  - exists slides. split; [exact Hiter|]. rewrite Hlen. reflexivity.
Defined.

(** ** Images of different content *)

Lemma add_image_inv (file : File) (self : ref) (pkg pkg' : Package)
    (image : ref) (rel : Relationship) :
  _BaseSlide._add_image file self pkg = Ok ((image, rel), pkg') →
  ImageCollection.blob_of pkg' image = Some (file_blob file) ∧
  target rel = image ∧
  reltype rel = RT.IMAGE ∧
  (∀ r, is_Some (ImageCollection.blob_of pkg r) →
     ImageCollection.blob_of pkg' r = ImageCollection.blob_of pkg r) ∧
  ∃ o', parts pkg' !! self = Some o' ∧ rel ∈ _relationships (Part_super o').
Proof.
  unfold _BaseSlide._add_image.
  destruct (add_image_found pkg file) as (i & Hfind & Hframe).
  destruct (ImageCollection.add_image file pkg) as [image0 pkgA].
  simpl in Hfind, Hframe.
  unfold Part_add_relationship. unfold_result.
  destruct (parts pkgA !! self) as [o|] eqn:Ho; [|done].
  pose proof (add_relationship_twice RT.IMAGE image0 (Part_super o)) as Htwice.
  destruct (BasePart._add_relationship RT.IMAGE image0 (Part_super o)) as [rel0 b].
  destruct Htwice as (_ & Hin & Htype & Htarget).
  intros [= <- <- <-].
  split; [|split; [done|split; [done|split]]].
  - rewrite blob_of_set_super by done.
    by apply list_find_Some in Hfind as (_ & Hblob & _).
  - intros r Hr. rewrite blob_of_set_super by done.
    unfold ImageCollection.blob_of in *. rewrite Hframe; [done|].
    destruct (parts pkg !! r); [eauto|]. by destruct Hr.
  - exists (Part_set_super b o). simpl. rewrite lookup_insert_eq.
    by rewrite Part_super_set_super.
Qed.

(** X12.  Two calls of [_add_image] on a part with files of different
    content, when they return, return different images and different
    relationships, and afterwards each image has the content of its file: the
    second call has not taken the image of the first for its own.  (The image
    registry is the one modelled for C9.) *)
Theorem add_image_distinct_content (file1 file2 : File) (self : ref)
    (pkg pkg1 pkg2 : Package) (image1 image2 : ref) (rel1 rel2 : Relationship) :
  file_blob file1 ≠ file_blob file2 →
  _BaseSlide._add_image file1 self pkg = Ok ((image1, rel1), pkg1) →
  _BaseSlide._add_image file2 self pkg1 = Ok ((image2, rel2), pkg2) →
  image1 ≠ image2 ∧
  rel1 ≠ rel2 ∧
  ImageCollection.blob_of pkg2 image1 = Some (file_blob file1) ∧
  ImageCollection.blob_of pkg2 image2 = Some (file_blob file2) ∧
  ∃ o, parts pkg2 !! self = Some o ∧
       rel1 ∈ _relationships (Part_super o) ∧ rel2 ∈ _relationships (Part_super o).
Proof.
  intros Hdiff Hfirst Hsecond.
  pose proof Hsecond as Hsecond'.
  apply add_image_inv in Hfirst as (Hblob1 & Htarget1 & _ & _ & o1 & Ho1 & Hrel1).
  apply add_image_inv in Hsecond as (Hblob2 & Htarget2 & _ & Hkeep & o2 & Ho2 & Hrel2).
  assert (ImageCollection.blob_of pkg2 image1 = Some (file_blob file1)) as Hblob1'.
  { rewrite Hkeep; [done|]. rewrite Hblob1. eauto. }
  assert (image1 ≠ image2) as Hne by congruence.
  split; [done|]. split; [congruence|]. split; [done|]. split; [done|].
  exists o2. split; [done|]. split; [|done].
  (* the relationships of the part after the first call are kept by the second *)
  unfold _BaseSlide._add_image in Hsecond'.
  destruct (add_image_found pkg1 file2) as (_ & _ & Hframe).
  destruct (ImageCollection.add_image file2 pkg1) as [image0 pkgB].
  simpl in Hframe. unfold Part_add_relationship in Hsecond'. unfold_result.
  rewrite Hframe, Ho1 in Hsecond' by eauto.
  unfold BasePart._add_relationship in Hsecond'.
  destruct (list_find _ (_relationships (Part_super o1))) as [[? ?]|];
    injection Hsecond' as <- <- <-; simpl in Ho2;
    rewrite lookup_insert_eq in Ho2; injection Ho2 as <-;
    rewrite Part_super_set_super; simpl; [done|].
  apply elem_of_app. by left.
Qed.

(** X12 on the slide of [demo_package_1] and two files of different
    content. *)
Lemma add_image_distinct_content_witness :
  let photo := {| file_name := "photo.jpg"; file_blob := "JPEG:photo" |} in
  ∃ image1 rel1 pkg1 image2 rel2 pkg2,
    _BaseSlide._add_image logo 2 demo_package_1 = Ok ((image1, rel1), pkg1) ∧
    _BaseSlide._add_image photo 2 pkg1 = Ok ((image2, rel2), pkg2) ∧
    image1 ≠ image2 ∧ rel1 ≠ rel2.
Proof.
  intros photo.
  destruct (_BaseSlide._add_image logo 2 demo_package_1)
    as [[[image1 rel1] pkg1]|] eqn:H1; [|by vm_compute in H1].
  destruct (_BaseSlide._add_image photo 2 pkg1)
    as [[[image2 rel2] pkg2]|] eqn:H2.
  - exists image1, rel1, pkg1, image2, rel2, pkg2.
    destruct (add_image_distinct_content logo photo 2 demo_package_1 pkg1 pkg2
                image1 image2 rel1 rel2) as (Hi & Hr & _); try done.
  - vm_compute in H1. injection H1 as <- <- <-. by vm_compute in H2.
Defined.
